(** * Phaser.Clock (src/time/Clock.js): a shallow embedding and its properties

    The clock accumulates scaled elapsed time in [now] and drives a built-in
    timer ([events]) plus the timers made by [create], pruning the ones whose
    [update()] reports completion.

    Modelling choices.
    - Numbers ([now], [timeScale], [elapsed], [since]) are [Z]: the integer
      fragment of JavaScript numbers, on which [+], [-] and [*] are exact.
    - Timer objects live in a heap (a list indexed by allocation order); a
      reference is an index.  [this.events], the entries of [this._timers] and
      the handle returned by [create] are such references, so aliasing is kept.
    - [Phaser.Timer] is not part of Clock.js: its constructor and methods are
      parameters of the development.  [start], [destroy] and [removeAll] act on
      the timer's own state; [update] runs user event callbacks, so it is a
      transformer of the whole machine that also returns the liveness value.
    - Every call the clock makes on a timer is appended to a log, so that
      statements such as "update() is called exactly once" can be written.
    - The scan loop of [update] keeps its cursor and bound in the fields
      [this._i] and [this._len]; callbacks can reach them, so the loop is
      modelled with fuel and may throw (a read past the end of the array). *)

From Stdlib Require Import ZArith Lia.
From stdpp Require Import base list.

(** ** References, events of the call log *)

Definition TimerRef := nat.

Inductive Event : Type :=
| EvNew (t : TimerRef) (autoDestroy : bool)   (* new Phaser.Timer(game, autoDestroy, clock) *)
| EvStart (t : TimerRef)                      (* t.start() *)
| EvUpdate (t : TimerRef) (alive : bool)      (* t.update() returned [alive] *)
| EvDestroy (t : TimerRef)                    (* t.destroy() *)
| EvRemoveAll (t : TimerRef).                 (* t.removeAll() *)

Definition is_update_of (t : TimerRef) (e : Event) : bool :=
  match e with EvUpdate t' _ => Nat.eqb t t' | _ => false end.

(** The [update()] calls of a log segment, in order, with their results. *)
Fixpoint updates_of (l : list Event) : list (TimerRef * bool) :=
  match l with
  | [] => []
  | EvUpdate t b :: l' => (t, b) :: updates_of l'
  | _ :: l' => updates_of l'
  end.

(** ** JavaScript array and comparison primitives used by the scan loop *)

(** [a < b] on numbers that may be [undefined]/[NaN] ([None]): false then. *)
Definition js_lt (a b : option Z) : bool :=
  match a, b with
  | Some x, Some y => (x <? y)%Z
  | _, _ => false
  end.

(** [arr[i]]: [undefined] ([None]) outside [0 .. length-1]. *)
Definition js_index {A} (l : list A) (i : option Z) : option A :=
  match i with
  | Some z => if (z <? 0)%Z then None else l !! Z.to_nat z
  | None => None
  end.

(** [arr.splice(start, 1)]: a negative start counts from the end, a start
    past the end removes nothing, [undefined]/[NaN] is read as 0. *)
Definition js_splice1 {A} (start : option Z) (l : list A) : list A :=
  let len := Z.of_nat (length l) in
  let s := match start with
           | None => 0%Z
           | Some z => if (z <? 0)%Z then Z.max (len + z) 0 else Z.min z len
           end in
  delete (Z.to_nat s) l.

(** ** Data model *)

Record Clock (Game : Type) : Type := mkClock {
  game : Game;
  now : Z;
  timeScale : Z;
  paused : bool;
  events : TimerRef;
  _timers : list TimerRef;
  _i : option Z;            (* undefined until the first unpaused update *)
  _len : option Z
}.
Arguments mkClock {Game} _ _ _ _ _ _ _ _.
Arguments game {Game} c.
Arguments now {Game} c.
Arguments timeScale {Game} c.
Arguments paused {Game} c.
Arguments events {Game} c.
Arguments _timers {Game} c.
Arguments _i {Game} c.
Arguments _len {Game} c.

Record Machine (Game TimerState : Type) : Type := mkMachine {
  clock : Clock Game;
  heap : list TimerState;
  log : list Event
}.
Arguments mkMachine {Game TimerState} _ _ _.
Arguments clock {Game TimerState} m.
Arguments heap {Game TimerState} m.
Arguments log {Game TimerState} m.

(** ** The external collaborator *)

(** The class Phaser.Timer is not part of Clock.js, so it is a parameter.
    Its interface is the one the clock uses: the constructor, [start()],
    [destroy()] (releasing the timer's own resources), [removeAll()]
    (clearing its schedule without destroying the timer object) and
    [update()].  The constructor and the first three methods act on the
    timer's own state. *)
Class TimerMethods (Game TimerState : Type) : Type := {
  Timer_new : Game -> bool -> TimerState;
  Timer_start : TimerState -> TimerState;
  Timer_destroy : TimerState -> TimerState;
  Timer_removeAll : TimerState -> TimerState
}.

(** [Timer.update()] returns the liveness value; it runs the user's event
    callbacks, which hold references to the clock, so it transforms the
    whole machine. *)
Class TimerUpdate (Game TimerState : Type) : Type := {
  Timer_update : TimerRef -> Machine Game TimerState -> bool * Machine Game TimerState
}.

Inductive Outcome (Game TimerState : Type) : Type :=
| Done (m : Machine Game TimerState)    (* the call returned *)
| Threw (m : Machine Game TimerState)   (* TypeError: this._timers[this._i] is undefined *)
| OutOfFuel.
Arguments Done {Game TimerState} m.
Arguments Threw {Game TimerState} m.
Arguments OutOfFuel {Game TimerState}.

Section ClockModel.

Context {Game TimerState : Type}.
Context {TM : TimerMethods Game TimerState} {TU : TimerUpdate Game TimerState}.

Local Abbreviation Clock := (Clock Game).
Local Abbreviation Machine := (Machine Game TimerState).
Local Abbreviation Outcome := (Outcome Game TimerState).

(** ** Field assignments *)

Definition set_now (v : Z) (c : Clock) : Clock :=
  mkClock (game c) v (timeScale c) (paused c) (events c) (_timers c) (_i c) (_len c).
Definition set_timeScale (v : Z) (c : Clock) : Clock :=
  mkClock (game c) (now c) v (paused c) (events c) (_timers c) (_i c) (_len c).
Definition set_paused (v : bool) (c : Clock) : Clock :=
  mkClock (game c) (now c) (timeScale c) v (events c) (_timers c) (_i c) (_len c).
Definition set_timers (v : list TimerRef) (c : Clock) : Clock :=
  mkClock (game c) (now c) (timeScale c) (paused c) (events c) v (_i c) (_len c).
Definition set_i (v : option Z) (c : Clock) : Clock :=
  mkClock (game c) (now c) (timeScale c) (paused c) (events c) (_timers c) v (_len c).
Definition set_len (v : option Z) (c : Clock) : Clock :=
  mkClock (game c) (now c) (timeScale c) (paused c) (events c) (_timers c) (_i c) v.

Definition with_clock (f : Clock -> Clock) (m : Machine) : Machine :=
  mkMachine (f (clock m)) (heap m) (log m).
Definition with_heap (f : list TimerState -> list TimerState) (m : Machine) : Machine :=
  mkMachine (clock m) (f (heap m)) (log m).
Definition emit (e : Event) (m : Machine) : Machine :=
  mkMachine (clock m) (heap m) (log m ++ [e]).

(** ** Calls on timers *)

Definition call_new (autoDestroy : bool) (m : Machine) : TimerRef * Machine :=
  let t := length (heap m) in
  (t, emit (EvNew t autoDestroy)
        (with_heap (fun h => h ++ [Timer_new (game (clock m)) autoDestroy]) m)).

Definition call_start (t : TimerRef) (m : Machine) : Machine :=
  emit (EvStart t) (with_heap (alter Timer_start t) m).

Definition call_destroy (t : TimerRef) (m : Machine) : Machine :=
  emit (EvDestroy t) (with_heap (alter Timer_destroy t) m).

Definition call_removeAll (t : TimerRef) (m : Machine) : Machine :=
  emit (EvRemoveAll t) (with_heap (alter Timer_removeAll t) m).

Definition call_update (t : TimerRef) (m : Machine) : bool * Machine :=
  let r := Timer_update t m in
  (fst r, emit (EvUpdate t (fst r)) (snd r)).

(** ** Phaser.Clock: constructor *)

Definition Clock_new (g : Game) : Machine :=
  (* this.events = new Phaser.Timer(this.game, false, this); *)
  let ev := 0 in
  let m := mkMachine (mkClock g 0 1 false ev [] None None)
                     [Timer_new g false] [EvNew ev false] in
  (* this.events.start(); *)
  call_start (events (clock m)) m.

(** ** Phaser.Clock.prototype.create *)

Definition create (autoDestroy : option bool) (m : Machine) : TimerRef * Machine :=
  (* if (typeof autoDestroy === 'undefined') { autoDestroy = true; } *)
  let a := match autoDestroy with None => true | Some b => b end in
  (* var timer = new Phaser.Timer(this.game, autoDestroy, this); *)
  let r := call_new a m in
  (* this._timers.push(timer); return timer; *)
  (fst r, with_clock (fun c => set_timers (_timers c ++ [fst r]) c) (snd r)).

(** ** Phaser.Clock.prototype.removeAll *)

(** [for (var i = 0; i < this._timers.length; i++) this._timers[i].destroy();]
    [destroy] does not touch the array, so [n] (the array length at entry)
    bounds the iterations; the lookup failing is the loop condition failing. *)
Fixpoint removeAll_loop (n : nat) (i : nat) (m : Machine) : Machine :=
  match n with
  | O => m
  | S n' =>
      match _timers (clock m) !! i with
      | Some t => removeAll_loop n' (S i) (call_destroy t m)
      | None => m
      end
  end.

Definition removeAll (m : Machine) : Machine :=
  let m1 := removeAll_loop (length (_timers (clock m))) 0 m in
  (* this._timers = []; *)
  let m2 := with_clock (set_timers []) m1 in
  (* this.events.removeAll(); *)
  call_removeAll (events (clock m2)) m2.

(** ** Phaser.Clock.prototype.update *)

(** [while (this._i < this._len) { ... }] *)
Fixpoint update_loop (fuel : nat) (m : Machine) : Outcome :=
  if js_lt (_i (clock m)) (_len (clock m)) then
    match fuel with
    | O => OutOfFuel
    | S fuel' =>
        match js_index (_timers (clock m)) (_i (clock m)) with
        | None => Threw m
        | Some t =>
            let r := call_update t m in
            if fst r then
              (* this._i++; *)
              update_loop fuel'
                (with_clock (fun c => set_i (Z.succ <$> _i c) c) (snd r))
            else
              (* this._timers.splice(this._i, 1); this._len--; *)
              update_loop fuel'
                (with_clock (fun c => set_len (Z.pred <$> _len c) c)
                   (with_clock (fun c => set_timers (js_splice1 (_i c) (_timers c)) c)
                      (snd r)))
        end
    end
  else Done m.

(** The statements of [update] before the loop. *)
Definition update_head (elapsed : Z) (m : Machine) : Machine :=
  (* this.now += elapsed * this.timeScale; *)
  let m1 := with_clock (fun c => set_now (now c + elapsed * timeScale c)%Z c) m in
  (* this.events.update();   -- the returned value is dropped *)
  let m2 := snd (call_update (events (clock m1)) m1) in
  (* this._i = 0; this._len = this._timers.length; *)
  let m3 := with_clock (set_i (Some 0%Z)) m2 in
  with_clock (fun c => set_len (Some (Z.of_nat (length (_timers c)))) c) m3.

Definition update (fuel : nat) (elapsed : Z) (m : Machine) : Outcome :=
  if negb (paused (clock m)) then update_loop fuel (update_head elapsed m)
  else Done m.

(** ** Phaser.Clock.prototype.elapsedSince, reset *)

Definition elapsedSince (since : Z) (m : Machine) : Z * Machine :=
  ((now (clock m) - since)%Z, m).

Definition reset (m : Machine) : Machine :=
  (* this.now = 0; this.removeAll(); *)
  removeAll (with_clock (set_now 0%Z) m).

(** Writes to the public read-write fields. *)
Definition write_timeScale (v : Z) (m : Machine) : Machine :=
  with_clock (set_timeScale v) m.
Definition write_paused (v : bool) (m : Machine) : Machine :=
  with_clock (set_paused v) m.

(** ** Sequences of public operations *)

Inductive Op : Type :=
| OpCreate (autoDestroy : option bool)
| OpRemoveAll
| OpUpdate (elapsed : Z)
| OpElapsedSince (since : Z)
| OpReset
| OpWriteTimeScale (v : Z)
| OpWritePaused (v : bool).

(** One operation that returns.  [update] returns when some amount of fuel
    lets the loop finish. *)
Inductive step : Op -> Machine -> Machine -> Prop :=
| step_create a m : step (OpCreate a) m (snd (create a m))
| step_removeAll m : step OpRemoveAll m (removeAll m)
| step_update e m fuel m' : update fuel e m = Done m' -> step (OpUpdate e) m m'
| step_elapsedSince s m : step (OpElapsedSince s) m (snd (elapsedSince s m))
| step_reset m : step OpReset m (reset m)
| step_timeScale v m : step (OpWriteTimeScale v) m (write_timeScale v m)
| step_paused v m : step (OpWritePaused v) m (write_paused v m).

Inductive run : list Op -> Machine -> Machine -> Prop :=
| run_nil m : run [] m m
| run_cons o os m m' m'' : step o m m' -> run os m' m'' -> run (o :: os) m m''.

(** ** What a timer callback may do *)

(** Two machines that agree on everything the clock can see: the clock
    record, the log, and which references are allocated.  The private state
    of the timers may differ. *)
Definition same_shape (m1 m2 : Machine) : Prop :=
  clock m1 = clock m2 /\ log m1 = log m2 /\ length (heap m1) = length (heap m2).

(** [create(a1); create(a2); ...] *)
Definition creates (flags : list (option bool)) (m : Machine) : Machine :=
  foldl (fun m a => snd (create a m)) m flags.

(** A callback discipline: besides changing timers' private state, an
    [update()] callback only calls [create] on the clock, with a list of
    arguments that satisfies [K]. *)
Definition callbacks_create (K : list (option bool) -> Prop) : Prop :=
  forall t m, exists flags,
    K flags /\ same_shape (snd (Timer_update t m)) (creates flags m).

(** Callbacks that never call back into the clock. *)
Definition timer_local : Prop := callbacks_create (fun flags => flags = []).

(** Callbacks that may call [create], any number of times. *)
Definition reentrant_create : Prop := callbacks_create (fun _ => True).

(** ** Descriptions of one scan *)

(** The entries that stay, given the liveness value each one returned. *)
Fixpoint survivors (ts : list TimerRef) (bs : list bool) : list TimerRef :=
  match ts, bs with
  | t :: ts', b :: bs' => if b then t :: survivors ts' bs' else survivors ts' bs'
  | _, _ => []
  end.

(** The constructor calls of [creates flags] on a heap of size [h]. *)
Definition news (h : nat) (flags : list (option bool)) : list Event :=
  imap (fun i a => EvNew (h + i) (default true a)) flags.

(** The log of a scan over [ts] on a heap of size [h], where the k-th
    callback returned [fst] and made the [create] calls [snd]. *)
Fixpoint scan_log (h : nat) (ts : list TimerRef)
    (rs : list (bool * list (option bool))) : list Event :=
  match ts, rs with
  | t :: ts', (b, fl) :: rs' =>
      news h fl ++ EvUpdate t b :: scan_log (h + length fl) ts' rs'
  | _, _ => []
  end.

(** How many timers the callbacks of a scan created. *)
Definition created (rs : list (bool * list (option bool))) : nat :=
  length (concat (rs.*2)).

(** The heap after [destroy()] on each of [ts], in order. *)
Definition destroy_each (ts : list TimerRef) (h : list TimerState) : list TimerState :=
  foldl (fun h t => alter Timer_destroy t h) h ts.


(** The calls that public operations started on [m] may make on timers:
    constructor calls yield fresh references; [update()] and [destroy()] go
    to timers managed in [m] or created since ([update()] also to [events]);
    [removeAll()] goes to [events] only; [start()] is never called. *)
Definition allowed (m : Machine) (e : Event) : Prop :=
  match e with
  | EvNew t _ => length (heap m) <= t
  | EvStart _ => False
  | EvUpdate t _ =>
      t = events (clock m) \/ t ∈ _timers (clock m) \/ length (heap m) <= t
  | EvDestroy t => t ∈ _timers (clock m) \/ length (heap m) <= t
  | EvRemoveAll t => t = events (clock m)
  end.

(** How many times [update()] was called on [t] in a log segment. *)
Definition update_calls (t : TimerRef) (seg : list Event) : nat :=
  length (List.filter (is_update_of t) seg).

(** ** Well-formed machines: every reference is allocated, [events] is not a
    managed timer, and no timer is managed twice. *)
Definition wf (m : Machine) : Prop :=
  events (clock m) < length (heap m) /\
  Forall (fun t => t < length (heap m)) (_timers (clock m)) /\
  (events (clock m) ∉ _timers (clock m)) /\
  NoDup (_timers (clock m)).

(** ** The time fields, timers left aside *)



(** Log entries an [update] can produce: [update()] calls, and the
    constructor calls of the [create]s made by callbacks. *)
Definition is_tick_or_new (e : Event) : Prop :=
  match e with
  | EvUpdate _ _ | EvNew _ _ => True
  | EvStart _ | EvDestroy _ | EvRemoveAll _ => False
  end.

End ClockModel.

(** ** A concrete timer class, for running the model

    The private state of a timer is a script: each [update()] consumes one
    entry, returns its liveness value and lets the callback call [create]
    with the listed arguments.  An exhausted or destroyed timer reports that
    it is finished. *)
Module Script.

Definition State : Type := list (bool * list (option bool)).

#[global] Instance methods : TimerMethods unit State := {|
  Timer_new := fun _ _ => [];
  Timer_start := fun s => s;
  Timer_destroy := fun _ => [];
  Timer_removeAll := fun _ => []
|}.

Definition tick (t : TimerRef) (m : Machine unit State) : bool * Machine unit State :=
  match heap m !! t with
  | Some ((b, fl) :: s) => (b, creates fl (with_heap (fun h => (<[t := s]> h)) m))
  | _ => (false, m)
  end.

(** The same scripts, with callbacks that do not call back into the clock. *)
Definition quiet_tick (t : TimerRef) (m : Machine unit State) : bool * Machine unit State :=
  match heap m !! t with
  | Some ((b, _) :: s) => (b, with_heap (fun h => (<[t := s]> h)) m)
  | _ => (false, m)
  end.

Definition reentrant : TimerUpdate unit State := {| Timer_update := tick |}.
Definition quiet : TimerUpdate unit State := {| Timer_update := quiet_tick |}.

(** The user schedules events on a timer it holds. *)
Definition schedule (t : TimerRef) (s : State) (m : Machine unit State) : Machine unit State :=
  with_heap (fun h => (<[t := s]> h)) m.

(** The same scripts, with callbacks that call [removeAll()] on the clock. *)
Definition clearing_tick (t : TimerRef) (m : Machine unit State) : bool * Machine unit State :=
  match heap m !! t with
  | Some ((b, _) :: s) => (b, removeAll (with_heap (fun h => (<[t := s]> h)) m))
  | _ => (false, m)
  end.

Definition clearing : TimerUpdate unit State := {| Timer_update := clearing_tick |}.

(** A fresh clock; the built-in timer has nothing scheduled, so its
    [update()] returns false. *)
Definition fresh : Machine unit State := Clock_new tt.

(** Two managed timers: A (reference 1) is alive on the first tick, where
    its callback creates a timer, and finished on the second; B (reference
    2) stays alive for three ticks. *)
Definition two_timers : Machine unit State :=
  schedule 2 [(true, []); (true, []); (true, [])]
    (schedule 1 [(true, [None]); (false, [])]
       (snd (create (Some false) (snd (create None fresh))))).

(** [two_timers] after one tick with callbacks that stay out of the clock:
    A is about to report that it is finished. *)
Definition before_second_tick : Machine unit State :=
  match update (TU := quiet) 2 16%Z two_timers with
  | Done m => m
  | _ => two_timers
  end.

End Script.

(** * Properties *)

Section ClockProperties.

Context {Game TimerState : Type}.
Context {TM : TimerMethods Game TimerState} {TU : TimerUpdate Game TimerState}.

Local Abbreviation Clock := (Clock Game).
Local Abbreviation Machine := (Machine Game TimerState).

Implicit Types (m : Machine) (c : Clock) (t : TimerRef).

(** ** Records and shapes *)

Lemma machine_eq m m' :
  clock m = clock m' -> heap m = heap m' -> log m = log m' -> m = m'.
Proof. destruct m, m'; simpl; congruence. Qed.

Lemma same_shape_refl m : same_shape m m.
Proof. by repeat split. Qed.

Lemma same_shape_with_heap f m :
  length (f (heap m)) = length (heap m) -> same_shape (with_heap f m) m.
Proof. intros Hf; repeat split; done. Qed.

(** ** [create] and [creates] *)

Lemma create_same_shape a m1 m2 :
  same_shape m1 m2 -> same_shape (snd (create a m1)) (snd (create a m2)).
Proof.
  intros (Hc & Hl & Hh). unfold same_shape, create, call_new; simpl.
  rewrite !length_app, Hc, Hl, Hh; done.
Qed.

Lemma creates_same_shape flags m1 m2 :
  same_shape m1 m2 -> same_shape (creates flags m1) (creates flags m2).
Proof.
  revert m1 m2; induction flags as [|a flags IH]; intros m1 m2 Hs; [done|].
  apply IH, create_same_shape, Hs.
Qed.

Lemma news_cons h a flags :
  news h (a :: flags) = EvNew h (default true a) :: news (S h) flags.
Proof.
  unfold news; simpl. rewrite Nat.add_0_r. f_equal.
  apply imap_ext; intros i x _; simpl. f_equal; lia.
Qed.

Lemma creates_clock flags m :
  clock (creates flags m) =
  set_timers (_timers (clock m) ++ seq (length (heap m)) (length flags)) (clock m).
Proof.
  revert m; induction flags as [|a flags IH]; intros m.
  - simpl. rewrite app_nil_r. by destruct (clock m).
  - change (creates (a :: flags) m) with (creates flags (snd (create a m))).
    rewrite IH. unfold create, call_new; simpl.
    rewrite length_app, <- app_assoc; simpl.
    replace (length (heap m) + 1) with (S (length (heap m))) by lia. done.
Qed.

Lemma creates_heap_length flags m :
  length (heap (creates flags m)) = length (heap m) + length flags.
Proof.
  revert m; induction flags as [|a flags IH]; intros m; [simpl; lia|].
  change (creates (a :: flags) m) with (creates flags (snd (create a m))).
  rewrite IH. unfold create, call_new; simpl. rewrite length_app; simpl; lia.
Qed.

Lemma creates_log flags m :
  log (creates flags m) = log m ++ news (length (heap m)) flags.
Proof.
  revert m; induction flags as [|a flags IH]; intros m.
  - simpl. by rewrite app_nil_r.
  - change (creates (a :: flags) m) with (creates flags (snd (create a m))).
    rewrite IH, news_cons. unfold create, call_new; simpl.
    rewrite length_app, <- app_assoc; simpl.
    replace (length (heap m) + 1) with (S (length (heap m))) by lia. done.
Qed.

Lemma clock_ext c c' :
  game c = game c' -> now c = now c' -> timeScale c = timeScale c' ->
  paused c = paused c' -> events c = events c' -> _timers c = _timers c' ->
  _i c = _i c' -> _len c = _len c' -> c = c'.
Proof. destruct c, c'; simpl; congruence. Qed.

(** ** The scan loop under a callback discipline *)

#[local] Arguments call_update : simpl never.

Ltac norm_app := repeat (progress (rewrite <- ?app_assoc; cbn [app])).

Tactic Notation "fields" :=
  unfold with_clock, with_heap, emit, set_now, set_timeScale, set_paused,
    set_timers, set_i, set_len;
  cbn [clock heap log game now timeScale paused events _timers _i _len
       fmap option_fmap option_map fst snd].

Tactic Notation "fields" "in" hyp(H) :=
  unfold with_clock, with_heap, emit, set_now, set_timeScale, set_paused,
    set_timers, set_i, set_len in H;
  cbn [clock heap log game now timeScale paused events _timers _i _len
       fmap option_fmap option_map fst snd] in H.

Lemma update_loop_more_fuel fuel : forall m m' fuel',
  update_loop fuel m = Done m' -> fuel <= fuel' -> update_loop fuel' m = Done m'.
Proof.
  induction fuel as [|fuel IH]; intros m m' fuel' Hrun Hle.
  - destruct fuel'; simpl in *;
      destruct (js_lt (_i (clock m)) (_len (clock m))); done.
  - destruct fuel' as [|fuel']; [lia|]. cbn [update_loop] in *.
    destruct (js_lt (_i (clock m)) (_len (clock m))); [|done].
    destruct (js_index (_timers (clock m)) (_i (clock m))); [|done].
    destruct (fst (call_update t m)); apply IH; (done || lia).
Qed.

Lemma update_deterministic elapsed m fuel1 fuel2 m1 m2 :
  update fuel1 elapsed m = Done m1 -> update fuel2 elapsed m = Done m2 -> m1 = m2.
Proof.
  unfold update. destruct (negb (paused (clock m))); [|congruence].
  intros H1 H2.
  apply (update_loop_more_fuel _ _ _ (Nat.max fuel1 fuel2)) in H1; [|lia].
  apply (update_loop_more_fuel _ _ _ (Nat.max fuel1 fuel2)) in H2; [|lia].
  congruence.
Qed.

Section Scan.

Variable K : list (option bool) -> Prop.
Hypothesis callbacks : callbacks_create K.

Lemma call_update_shape t m :
  exists flags, K flags /\
    clock (snd (call_update t m)) =
      set_timers (_timers (clock m) ++ seq (length (heap m)) (length flags)) (clock m) /\
    length (heap (snd (call_update t m))) = length (heap m) + length flags /\
    log (snd (call_update t m)) =
      log m ++ news (length (heap m)) flags ++ [EvUpdate t (fst (call_update t m))].
Proof.
  destruct (callbacks t m) as (flags & HK & Hc & Hl & Hh).
  exists flags; split; [done|]. unfold call_update; simpl.
  rewrite Hc, Hl, Hh, creates_clock, creates_heap_length, creates_log.
  by rewrite <- app_assoc.
Qed.

Lemma update_loop_scan rest : forall kept tail m fuel,
  _timers (clock m) = kept ++ rest ++ tail ->
  _i (clock m) = Some (Z.of_nat (length kept)) ->
  _len (clock m) = Some (Z.of_nat (length kept + length rest)) ->
  length rest <= fuel ->
  exists rs m',
    update_loop fuel m = Done m' /\
    length rs = length rest /\
    Forall (fun r => K (snd r)) rs /\
    clock m' =
      set_len (Some (Z.of_nat (length kept + length (survivors rest (rs.*1)))))
        (set_i (Some (Z.of_nat (length kept + length (survivors rest (rs.*1)))))
           (set_timers (kept ++ survivors rest (rs.*1) ++ tail
                          ++ seq (length (heap m)) (created rs)) (clock m))) /\
    length (heap m') = length (heap m) + created rs /\
    log m' = log m ++ scan_log (length (heap m)) rest rs.
Proof.
  induction rest as [|t rest IH]; intros kept tail m fuel Ht Hi Hl Hfuel.
  - exists [], m. simpl in *.
    assert (update_loop fuel m = Done m) as ->.
    { destruct fuel; simpl; rewrite Hi, Hl; simpl;
        rewrite Nat.add_0_r, Z.ltb_irrefl; done. }
    split; [done|]. split; [done|]. split; [constructor|].
    split; [|split; [unfold created; simpl; lia | by rewrite app_nil_r]].
    rewrite Nat.add_0_r in *.
    apply clock_ext; fields; rewrite ?app_nil_r; done.
  - destruct fuel as [|fuel]; [simpl in Hfuel; lia|].
    simpl in Hfuel.
    destruct (call_update_shape t m) as (fl & HK & Hc & Hh & Hlog).
    assert (Hidx : js_index (_timers (clock m)) (_i (clock m)) = Some t).
    { rewrite Hi, Ht; simpl.
      destruct (Z.ltb_spec (Z.of_nat (length kept)) 0); [lia|].
      rewrite Nat2Z.id, lookup_app_r by lia.
      by rewrite Nat.sub_diag. }
    assert (Hlt : js_lt (_i (clock m)) (_len (clock m)) = true).
    { rewrite Hi, Hl; simpl. apply Z.ltb_lt. lia. }
    cbn [update_loop]. rewrite Hlt, Hidx.
    destruct (fst (call_update t m)) eqn:Halive.
    + (* alive: the cursor moves on *)
      edestruct (IH (kept ++ [t]) (tail ++ seq (length (heap m)) (length fl))
                   (with_clock (fun c => set_i (Z.succ <$> _i c) c) (snd (call_update t m)))
                   fuel)
        as (rs & m' & Hrun & Hlen & HKs & Hclock & Hheap & Hlog').
      { fields. rewrite Hc. fields. rewrite Ht. by norm_app. }
      { fields. rewrite Hc. fields. rewrite Hi. fields. rewrite length_app; simpl.
        f_equal; lia. }
      { fields. rewrite Hc. fields. rewrite Hl, length_app; simpl. f_equal; lia. }
      { lia. }
      exists ((true, fl) :: rs), m'. split; [done|].
      split; [simpl; lia|]. split; [by constructor|].
      fields in Hclock. fields in Hheap. fields in Hlog'.
      rewrite Hc in Hclock. rewrite Hh in Hclock, Hheap, Hlog'.
      rewrite Hlog in Hlog'. fields in Hclock. rewrite length_app in Hclock.
      unfold created in *. rewrite !fmap_cons.
      cbn [fst snd survivors concat scan_log length]. rewrite length_app.
      split; [|split].
      * rewrite Hclock. fields.
        replace (length kept + length [t] + length (survivors rest (rs.*1)))
          with (length kept + S (length (survivors rest (rs.*1)))) by (simpl; lia).
        f_equal. rewrite seq_app. by norm_app.
      * lia.
      * rewrite Hlog'. by norm_app.
    + (* finished: spliced out, the cursor stays *)
      edestruct (IH kept (tail ++ seq (length (heap m)) (length fl))
                   (with_clock (fun c => set_len (Z.pred <$> _len c) c)
                      (with_clock (fun c => set_timers (js_splice1 (_i c) (_timers c)) c)
                         (snd (call_update t m))))
                   fuel)
        as (rs & m' & Hrun & Hlen & HKs & Hclock & Hheap & Hlog').
      { fields. rewrite Hc. fields. rewrite Hi, Ht. unfold js_splice1.
        destruct (Z.ltb_spec (Z.of_nat (length kept)) 0); [lia|].
        rewrite Z.min_l by (rewrite !length_app; simpl; lia).
        rewrite Nat2Z.id. norm_app. by rewrite delete_middle. }
      { fields. rewrite Hc. fields. done. }
      { fields. rewrite Hc. fields. rewrite Hl. fields. f_equal; simpl; lia. }
      { lia. }
      exists ((false, fl) :: rs), m'. split; [done|].
      split; [simpl; lia|]. split; [by constructor|].
      fields in Hclock. fields in Hheap. fields in Hlog'.
      rewrite Hc in Hclock. rewrite Hh in Hclock, Hheap, Hlog'.
      rewrite Hlog in Hlog'. fields in Hclock.
      unfold created in *. rewrite !fmap_cons.
      cbn [fst snd survivors concat scan_log length]. rewrite length_app.
      split; [|split].
      * rewrite Hclock. fields. f_equal. rewrite seq_app. by norm_app.
      * lia.
      * rewrite Hlog'. by norm_app.
Qed.

Lemma update_head_shape elapsed m :
  exists flags, K flags /\
    clock (update_head elapsed m) =
      set_len (Some (Z.of_nat (length (_timers (clock m)) + length flags)))
        (set_i (Some 0%Z)
           (set_timers (_timers (clock m) ++ seq (length (heap m)) (length flags))
              (set_now (now (clock m) + elapsed * timeScale (clock m))%Z (clock m)))) /\
    length (heap (update_head elapsed m)) = length (heap m) + length flags /\
    log (update_head elapsed m) =
      log m ++ news (length (heap m)) flags
        ++ [EvUpdate (events (clock m))
              (fst (Timer_update (events (clock m))
                      (with_clock (fun c => set_now (now c + elapsed * timeScale c)%Z c) m)))].
Proof.
  unfold update_head.
  set (m1 := with_clock (fun c => set_now (now c + elapsed * timeScale c)%Z c) m).
  destruct (call_update_shape (events (clock m1)) m1) as (fl & HK & Hc & Hh & Hlog).
  exists fl; split; [done|]. fields. rewrite Hc, Hh, Hlog. fields.
  rewrite length_app, length_seq. done.
Qed.

(** An unpaused [update] returns as soon as the fuel covers the entries
    present when the scan starts; [rs] lists, per entry, the liveness value
    returned and the [create] calls made by the callback. *)
Lemma update_returns elapsed m fuel :
  paused (clock m) = false ->
  length (_timers (clock (update_head elapsed m))) <= fuel ->
  exists rs m',
    update fuel elapsed m = Done m' /\
    length rs = length (_timers (clock (update_head elapsed m))) /\
    Forall (fun r => K (snd r)) rs /\
    clock m' =
      set_len (Some (Z.of_nat (length
                 (survivors (_timers (clock (update_head elapsed m))) (rs.*1)))))
        (set_i (Some (Z.of_nat (length
                 (survivors (_timers (clock (update_head elapsed m))) (rs.*1)))))
           (set_timers
              (survivors (_timers (clock (update_head elapsed m))) (rs.*1)
                 ++ seq (length (heap (update_head elapsed m))) (created rs))
              (clock (update_head elapsed m)))) /\
    length (heap m') = length (heap (update_head elapsed m)) + created rs /\
    log m' = log (update_head elapsed m)
               ++ scan_log (length (heap (update_head elapsed m)))
                    (_timers (clock (update_head elapsed m))) rs.
Proof.
  intros Hp Hfuel. unfold update. rewrite Hp; simpl.
  destruct (update_head_shape elapsed m) as (fl & _ & Hc & _ & _).
  destruct (update_loop_scan (_timers (clock (update_head elapsed m))) [] []
              (update_head elapsed m) fuel)
    as (rs & m' & Hrun & Hlen & HKs & Hclock & Hheap & Hlog).
  - by rewrite app_nil_r.
  - rewrite Hc. by fields.
  - rewrite Hc. fields. by rewrite length_app, length_seq.
  - done.
  - cbn [app length Nat.add] in Hclock. by exists rs, m'.
Qed.


Lemma update_total elapsed m : exists m', step (OpUpdate elapsed) m m'.
Proof.
  destruct (paused (clock m)) eqn:Hp.
  - exists m. apply (step_update elapsed m 0). unfold update. by rewrite Hp.
  - destruct (update_returns elapsed m
                (length (_timers (clock (update_head elapsed m)))) Hp)
      as (rs & m' & Hrun & _); [lia|].
    exists m'. by eapply step_update.
Qed.

End Scan.

(** ** [removeAll] *)

Lemma removeAll_loop_spec n : forall i m,
  clock (removeAll_loop n i m) = clock m /\
  heap (removeAll_loop n i m) =
    destroy_each (take n (drop i (_timers (clock m)))) (heap m) /\
  log (removeAll_loop n i m) =
    log m ++ map EvDestroy (take n (drop i (_timers (clock m)))).
Proof.
  induction n as [|n IH]; intros i m; cbn [removeAll_loop].
  - rewrite take_0, app_nil_r. done.
  - destruct (_timers (clock m) !! i) as [t|] eqn:Hi.
    + destruct (IH (S i) (call_destroy t m)) as (Hc & Hh & Hl).
      rewrite Hc, Hh, Hl. rewrite (drop_S _ _ _ Hi).
      unfold call_destroy. fields. split; [done|]. split; [done|].
      by norm_app.
    + apply lookup_ge_None in Hi. rewrite drop_ge by done.
      rewrite take_nil, app_nil_r. done.
Qed.

Lemma removeAll_spec m :
  clock (removeAll m) = set_timers [] (clock m) /\
  heap (removeAll m) =
    alter Timer_removeAll (events (clock m))
      (destroy_each (_timers (clock m)) (heap m)) /\
  log (removeAll m) =
    log m ++ map EvDestroy (_timers (clock m)) ++ [EvRemoveAll (events (clock m))].
Proof.
  unfold removeAll.
  destruct (removeAll_loop_spec (length (_timers (clock m))) 0 m) as (Hc & Hh & Hl).
  rewrite drop_0, firstn_all in Hh, Hl.
  unfold call_removeAll. fields. rewrite Hc, Hh, Hl. fields.
  split; [done|]. split; [done|]. by norm_app.
Qed.

Lemma destroy_each_length ts (h : list TimerState) :
  length (destroy_each ts h) = length h.
Proof.
  revert h; induction ts as [|t ts IH]; intros h; [done|].
  unfold destroy_each in *; simpl. by rewrite IH, length_alter.
Qed.

(** ** Survivors and scan logs *)

Lemma survivors_sublist ts : forall bs, survivors ts bs `sublist_of` ts.
Proof.
  induction ts as [|t ts IH]; intros [|[] bs]; simpl;
    try apply sublist_nil_l.
  - by apply sublist_skip.
  - by apply sublist_cons.
Qed.

Lemma survivors_elem ts bs t : t ∈ survivors ts bs -> t ∈ ts.
Proof. intros Ht. eapply elem_of_sublist; [done | apply survivors_sublist]. Qed.

Lemma survivors_alive ts : forall bs t,
  t ∈ survivors ts bs <-> exists i, ts !! i = Some t /\ bs !! i = Some true.
Proof.
  induction ts as [|t0 ts IH]; intros bs t.
  - simpl. split; [by intros ?%elem_of_nil | by intros (i & ? & _)].
  - destruct bs as [|b bs].
    { simpl. split; [by intros ?%elem_of_nil | by intros (i & _ & ?)]. }
    destruct b; simpl.
    + rewrite elem_of_cons, IH. split.
      * intros [->|(i & ? & ?)]; [by exists 0 | by exists (S i)].
      * intros ([|i] & Ht & Hb); simpl in *; [left; congruence | right; eauto].
    + rewrite IH. split.
      * intros (i & ? & ?); by exists (S i).
      * intros ([|i] & Ht & Hb); simpl in *; [congruence | eauto].
Qed.

Lemma news_elem h flags e :
  e ∈ news h flags -> exists t a, e = EvNew t a /\ h <= t.
Proof.
  unfold news. intros (i & a & -> & _)%elem_of_lookup_imap.
  eexists _, _; split; [done | lia].
Qed.

Lemma updates_of_app l1 l2 : updates_of (l1 ++ l2) = updates_of l1 ++ updates_of l2.
Proof.
  induction l1 as [|[] l1 IH]; simpl; rewrite ?IH; done.
Qed.

Lemma updates_of_news h flags : updates_of (news h flags) = [].
Proof.
  revert h; induction flags as [|a flags IH]; intros h; [done|].
  rewrite news_cons; simpl. apply IH.
Qed.

Lemma updates_of_scan_log ts : forall h rs,
  length rs = length ts -> updates_of (scan_log h ts rs) = zip ts (rs.*1).
Proof.
  induction ts as [|t ts IH]; intros h [|[b fl] rs] Hlen; simpl in *; try done.
  rewrite updates_of_app, updates_of_news; simpl. f_equal. apply IH. lia.
Qed.

Lemma scan_log_elem ts : forall h rs e,
  e ∈ scan_log h ts rs ->
  (exists t a, e = EvNew t a /\ h <= t) \/ (exists t b, e = EvUpdate t b /\ t ∈ ts).
Proof.
  induction ts as [|t ts IH]; intros h [|[b fl] rs] e; simpl;
    try (by intros ?%elem_of_nil).
  rewrite elem_of_app, elem_of_cons. intros [Hn|[->|Hs]].
  - left. by eapply news_elem.
  - right. exists t, b. split; [done | apply elem_of_cons; by left].
  - destruct (IH _ _ _ Hs) as [(t' & a & -> & ?)|(t' & b' & -> & ?)].
    + left. exists t', a. split; [done | lia].
    + right. exists t', b'. split; [done | apply elem_of_cons; by right].
Qed.

(** Without reentrant calls the log of a scan is one [update()] per entry. *)
Lemma scan_log_local ts : forall h rs,
  length rs = length ts -> Forall (fun r => snd r = []) rs ->
  scan_log h ts rs = zip_with EvUpdate ts (rs.*1) /\ created rs = 0.
Proof.
  induction ts as [|t ts IH]; intros h [|[b fl] rs] Hlen HK; simpl in Hlen; try done.
  inversion HK as [|? ? Hfl HK']; subst. simpl in Hfl; subst fl.
  destruct (IH (h + 0) rs ltac:(lia) HK') as [Hs Hc].
  unfold created in *; simpl. by rewrite Hs.
Qed.

Lemma scan_log_covers ts : forall h rs t,
  length rs = length ts -> t ∈ ts -> exists b, EvUpdate t b ∈ scan_log h ts rs.
Proof.
  induction ts as [|t0 ts IH]; intros h [|[b fl] rs] t Hlen Ht; simpl in Hlen;
    try done; [by apply elem_of_nil in Ht|].
  cbn [scan_log]. apply elem_of_cons in Ht as [->|Ht].
  - exists b. rewrite elem_of_app, elem_of_cons. right; by left.
  - destruct (IH (h + length fl) rs t ltac:(lia) Ht) as (b' & Hin).
    exists b'. rewrite elem_of_app, elem_of_cons. right; by right.
Qed.

Lemma update_calls_zip t ts : forall bs,
  length bs = length ts ->
  update_calls t (zip_with EvUpdate ts bs) = length (List.filter (Nat.eqb t) ts).
Proof.
  unfold update_calls.
  induction ts as [|t0 ts IH]; intros [|b bs] Hlen; simpl in *; try done.
  destruct (Nat.eqb t t0); simpl; rewrite IH by lia; done.
Qed.

Lemma filter_eqb_NoDup t ts :
  NoDup ts -> t ∈ ts -> length (List.filter (Nat.eqb t) ts) = 1.
Proof.
  induction 1 as [|t0 ts Hnin Hnd IH]; [by intros ?%elem_of_nil|].
  intros Ht. simpl. destruct (Nat.eqb_spec t t0) as [->|Hne].
  - simpl. f_equal. clear IH Ht Hnd.
    induction ts as [|t1 ts IH]; [done|]. simpl.
    apply not_elem_of_cons in Hnin as [Hne Hnin].
    destruct (Nat.eqb_spec t0 t1); [done | by apply IH].
  - apply elem_of_cons in Ht as [?|Ht]; [done | by apply IH].
Qed.

(** ** Well-formedness and the footprint of the operations *)

Lemma wf_alt m :
  wf m <->
  events (clock m) < length (heap m) /\
  (forall t, t ∈ _timers (clock m) -> t < length (heap m)) /\
  (events (clock m) ∉ _timers (clock m)) /\
  NoDup (_timers (clock m)).
Proof. unfold wf. by rewrite Forall_forall. Qed.

Lemma wf_Clock_new g : wf (Clock_new g).
Proof.
  apply wf_alt. unfold Clock_new, call_start. fields.
  rewrite length_alter. simpl. repeat split.
  - lia.
  - by intros t ?%elem_of_nil.
  - by intros ?%elem_of_nil.
  - constructor.
Qed.

#[local] Arguments create : simpl never.
#[local] Arguments removeAll : simpl never.

Lemma create_spec a m :
  fst (create a m) = length (heap m) /\
  clock (snd (create a m)) =
    set_timers (_timers (clock m) ++ [length (heap m)]) (clock m) /\
  heap (snd (create a m)) = heap m ++ [Timer_new (game (clock m)) (default true a)] /\
  log (snd (create a m)) = log m ++ [EvNew (length (heap m)) (default true a)].
Proof. unfold create, call_new. fields. by destruct a. Qed.

Lemma create_footprint a m :
  wf m ->
  wf (snd (create a m)) /\
  events (clock (snd (create a m))) = events (clock m) /\
  length (heap m) <= length (heap (snd (create a m))) /\
  (forall t, t ∈ _timers (clock (snd (create a m))) ->
     t ∈ _timers (clock m) \/ length (heap m) <= t) /\
  exists seg, log (snd (create a m)) = log m ++ seg /\ Forall (allowed m) seg.
Proof.
  rewrite !wf_alt. intros (Hev & Hts & Hne & Hnd).
  destruct (create_spec a m) as (_ & Hc & Hh & Hl).
  rewrite Hc, Hh, Hl. fields. rewrite length_app. simpl.
  split; [|split; [done|split; [lia|split]]].
  - repeat split.
    + lia.
    + intros t [Ht| ->%list_elem_of_singleton]%elem_of_app; [apply Hts in Ht|]; lia.
    + intros [Ht| Ht%list_elem_of_singleton]%elem_of_app; [done | lia].
    + apply NoDup_app. repeat split; [done| |apply NoDup_singleton].
      intros t Ht ->%list_elem_of_singleton. apply Hts in Ht. lia.
  - intros t [Ht| ->%list_elem_of_singleton]%elem_of_app; [by left | by right].
  - eexists; split; [done|]. repeat constructor.
Qed.

Lemma removeAll_footprint m :
  wf m ->
  wf (removeAll m) /\
  events (clock (removeAll m)) = events (clock m) /\
  length (heap m) <= length (heap (removeAll m)) /\
  (forall t, t ∈ _timers (clock (removeAll m)) ->
     t ∈ _timers (clock m) \/ length (heap m) <= t) /\
  exists seg, log (removeAll m) = log m ++ seg /\ Forall (allowed m) seg.
Proof.
  rewrite !wf_alt. intros (Hev & Hts & Hne & Hnd).
  destruct (removeAll_spec m) as (Hc & Hh & Hl).
  rewrite Hc, Hh, Hl. fields. rewrite length_alter, destroy_each_length.
  split; [|split; [done|split; [lia|split]]].
  - repeat split; [done | by intros t ?%elem_of_nil | by intros ?%elem_of_nil | constructor].
  - by intros t ?%elem_of_nil.
  - eexists; split; [done|]. apply Forall_app; split.
    + apply Forall_forall. intros e (t & -> & Ht)%list_elem_of_fmap. by left.
    + by repeat constructor.
Qed.

Section Reentrant.

Hypothesis callbacks : reentrant_create.

Lemma update_footprint elapsed m fuel m' :
  update fuel elapsed m = Done m' ->
  wf m ->
  wf m' /\
  events (clock m') = events (clock m) /\
  length (heap m) <= length (heap m') /\
  (forall t, t ∈ _timers (clock m') -> t ∈ _timers (clock m) \/ length (heap m) <= t) /\
  exists seg, log m' = log m ++ seg /\ Forall (allowed m) seg.
Proof.
  intros Hrun Hwf.
  destruct (paused (clock m)) eqn:Hp.
  { unfold update in Hrun. rewrite Hp in Hrun. simpl in Hrun.
    injection Hrun as <-.
    split; [done|]. split; [done|]. split; [lia|]. split; [by left|].
    exists []. by rewrite app_nil_r. }
  destruct (update_head_shape _ callbacks elapsed m) as (fl0 & _ & Hc1 & Hh1 & Hlog1).
  destruct (update_returns _ callbacks elapsed m
              (Nat.max fuel (length (_timers (clock (update_head elapsed m))))) Hp)
    as (rs & m'' & Hrun' & Hlen & _ & Hclock & Hheap & Hlog); [lia|].
  assert (m'' = m') as -> by (eapply update_deterministic; done).
  clear Hrun Hrun'.
  set (ts1 := _timers (clock (update_head elapsed m))) in *.
  assert (Hts1 : ts1 = _timers (clock m) ++ seq (length (heap m)) (length fl0))
    by (unfold ts1; by rewrite Hc1).
  assert (Hev1 : events (clock m') = events (clock m))
    by (rewrite Hclock, Hc1; done).
  assert (Htm : _timers (clock m') =
                survivors ts1 (rs.*1)
                  ++ seq (length (heap m) + length fl0) (created rs))
    by (rewrite Hclock, Hh1; done).
  rewrite Hh1 in Hheap, Hlog. rewrite Hlog1 in Hlog. clear Hclock Hc1 Hlog1 Hh1.
  apply wf_alt in Hwf as (Hev & Hts & Hne & Hnd).
  assert (Hin1 : forall t, t ∈ ts1 -> t < length (heap m) + length fl0).
  { intros t. rewrite Hts1, elem_of_app, elem_of_seq.
    intros [Ht|Ht]; [apply Hts in Ht|]; lia. }
  assert (Hnd1 : NoDup ts1).
  { rewrite Hts1. apply NoDup_app. repeat split; [done| |apply NoDup_seq].
    intros t Ht [? _]%elem_of_seq. apply Hts in Ht. lia. }
  split; [|split; [done|split; [lia|split]]].
  - apply wf_alt. rewrite Hev1, Htm, Hheap. repeat split.
    + lia.
    + intros t [Ht%survivors_elem%Hin1|Ht%elem_of_seq]%elem_of_app; lia.
    + intros [Ht%survivors_elem|Ht%elem_of_seq]%elem_of_app; [|lia].
      rewrite Hts1 in Ht. apply elem_of_app in Ht as [Ht|Ht%elem_of_seq]; [done|lia].
    + apply NoDup_app. repeat split; [|  |apply NoDup_seq].
      * eapply sublist_NoDup; [done | apply survivors_sublist].
      * intros t Ht%survivors_elem%Hin1 [? _]%elem_of_seq. lia.
  - intros t. rewrite Htm, elem_of_app, elem_of_seq.
    intros [Ht%survivors_elem|Ht]; [|right; lia].
    rewrite Hts1 in Ht. apply elem_of_app in Ht as [Ht|Ht%elem_of_seq]; [by left|right; lia].
  - eexists; split; [rewrite Hlog; by norm_app|].
    apply Forall_app; split; [|constructor].
    + apply Forall_forall. intros e (t & a & -> & ?)%news_elem. done.
    + by left.
    + apply Forall_forall. intros e He. apply scan_log_elem in He
        as [(t & a & -> & ?)|(t & b & -> & Ht)]; simpl; [lia|].
      rewrite Hts1 in Ht. apply elem_of_app in Ht as [Ht|Ht%elem_of_seq]; [by auto|].
      right; right; lia.
Qed.

Lemma step_footprint o m m' :
  step o m m' ->
  wf m ->
  wf m' /\
  events (clock m') = events (clock m) /\
  length (heap m) <= length (heap m') /\
  (forall t, t ∈ _timers (clock m') -> t ∈ _timers (clock m) \/ length (heap m) <= t) /\
  exists seg, log m' = log m ++ seg /\ Forall (allowed m) seg.
Proof.
  assert (Hsame : forall m0 f, wf m0 ->
    wf (with_clock f m0) -> events (f (clock m0)) = events (clock m0) ->
    _timers (f (clock m0)) = _timers (clock m0) ->
    wf (with_clock f m0) /\
    events (clock (with_clock f m0)) = events (clock m0) /\
    length (heap m0) <= length (heap (with_clock f m0)) /\
    (forall t, t ∈ _timers (clock (with_clock f m0)) ->
       t ∈ _timers (clock m0) \/ length (heap m0) <= t) /\
    exists seg, log (with_clock f m0) = log m0 ++ seg /\ Forall (allowed m0) seg).
  { intros m0 f _ Hwf' He Ht.
    split; [done|]. split; [done|]. split; [done|].
    split; [intros t; fields; rewrite Ht; by left|].
    exists []. fields. by rewrite app_nil_r. }
  intros Hstep Hwf. destruct Hstep.
  - by apply create_footprint.
  - by apply removeAll_footprint.
  - by eapply update_footprint.
  - simpl. split; [done|]. split; [done|]. split; [lia|]. split; [by left|].
    exists []. by rewrite app_nil_r.
  - unfold reset.
    assert (Hwf0 : wf (with_clock (set_now 0%Z) m)) by done.
    exact (removeAll_footprint _ Hwf0).
  - by apply Hsame.
  - by apply Hsame.
Qed.

Lemma allowed_later m m' e :
  events (clock m') = events (clock m) ->
  length (heap m) <= length (heap m') ->
  (forall t, t ∈ _timers (clock m') -> t ∈ _timers (clock m) \/ length (heap m) <= t) ->
  allowed m' e -> allowed m e.
Proof.
  intros Hev Hh Hts. destruct e as [t a|t|t b|t|t]; simpl; try done.
  - lia.
  - intros [->|[Ht%Hts|?]]; [by left | destruct Ht; auto | right; right; lia].
  - intros [Ht%Hts|?]; [done | right; lia].
  - by intros ->.
Qed.

Lemma run_footprint ops m m' :
  run ops m m' ->
  wf m ->
  wf m' /\
  events (clock m') = events (clock m) /\
  length (heap m) <= length (heap m') /\
  (forall t, t ∈ _timers (clock m') -> t ∈ _timers (clock m) \/ length (heap m) <= t) /\
  exists seg, log m' = log m ++ seg /\ Forall (allowed m) seg.
Proof.
  induction 1 as [m|o os m m1 m2 Hstep Hrun IH]; intros Hwf.
  - split; [done|]. split; [done|]. split; [lia|]. split; [by left|].
    exists []. by rewrite app_nil_r.
  - destruct (step_footprint _ _ _ Hstep Hwf) as (Hwf1 & Hev1 & Hh1 & Hts1 & seg1 & Hl1 & Ha1).
    destruct (IH Hwf1) as (Hwf2 & Hev2 & Hh2 & Hts2 & seg2 & Hl2 & Ha2).
    split; [done|]. split; [congruence|]. split; [lia|]. split.
    + intros t [Ht%Hts1|?]%Hts2; [done | right; lia].
    + exists (seg1 ++ seg2). split; [rewrite Hl2, Hl1; by norm_app|].
      apply Forall_app; split; [done|].
      eapply Forall_impl; [exact Ha2|]. intros e. by apply allowed_later.
Qed.

End Reentrant.

(** ** The claims *)

(** C3: on a paused clock, [update(elapsed)] returns at once, whatever the
    elapsed value and the fuel: the machine afterwards is the machine before,
    so [now], [timeScale], [paused], [events] and the managed list are
    unchanged, no timer state changed, and the log is the same, that is
    neither [events.update()] nor any managed timer's [update()] was called. *)
Theorem paused_update_is_noop (m : Machine) (fuel : nat) (elapsed : Z) :
  paused (clock m) = true ->
  update fuel elapsed m = Done m.
Proof. intros Hp. unfold update. by rewrite Hp. Qed.


(** C5: [reset()] is [removeAll()] with [now] set to 0: every managed timer
    gets [destroy()], the list is emptied, [events] gets [removeAll()], and
    [timeScale], [paused] and [events] keep their values. *)
Theorem reset_zeroes_now_and_removes_all (m : Machine) :
  reset m = with_clock (set_now 0%Z) (removeAll m) /\
  now (clock (reset m)) = 0%Z /\
  timeScale (clock (reset m)) = timeScale (clock m) /\
  paused (clock (reset m)) = paused (clock m) /\
  events (clock (reset m)) = events (clock m) /\
  _timers (clock (reset m)) = [] /\
  heap (reset m) =
    alter Timer_removeAll (events (clock m))
      (destroy_each (_timers (clock m)) (heap m)) /\
  log (reset m) =
    log m ++ map EvDestroy (_timers (clock m)) ++ [EvRemoveAll (events (clock m))].
Proof.
  unfold reset.
  destruct (removeAll_spec (with_clock (set_now 0%Z) m)) as (Hc & Hh & Hl).
  destruct (removeAll_spec m) as (Hc' & Hh' & Hl').
  split.
  - apply machine_eq; fields; rewrite ?Hc, ?Hh, ?Hl, ?Hc', ?Hh', ?Hl'; done.
  - rewrite Hc, Hh, Hl. done.
Qed.

(** C10: [create(autoDestroy)] allocates one timer, built with the given
    flag ([true] when the argument is omitted), appends its reference to the
    managed list and returns it.  [now], [timeScale], [paused] and [events]
    keep their values, the only call made is the constructor, [paused] plays
    no role, and no later operation calls [start()] on any timer, whereas the
    constructor of the clock starts [events]. *)
Theorem create_appends_a_fresh_timer (g : Game) (a : option bool) (m : Machine) :
  let t := length (heap m) in
  let flag := match a with Some b => b | None => true end in
  create a m =
    (t, mkMachine (set_timers (_timers (clock m) ++ [t]) (clock m))
                  (heap m ++ [Timer_new (game (clock m)) flag])
                  (log m ++ [EvNew t flag])) /\
  now (clock (snd (create a m))) = now (clock m) /\
  timeScale (clock (snd (create a m))) = timeScale (clock m) /\
  paused (clock (snd (create a m))) = paused (clock m) /\
  events (clock (snd (create a m))) = events (clock m) /\
  (forall b, create a (write_paused b m) =
             (fst (create a m), write_paused b (snd (create a m)))) /\
  log (Clock_new g) = [EvNew 0 false; EvStart 0] /\
  (reentrant_create -> wf m -> forall ops m',
     run ops (snd (create a m)) m' ->
     exists seg, log m' = log m ++ EvNew t flag :: seg /\
                 forall t', EvStart t' ∉ seg).
Proof.
  intros t flag.
  split; [by destruct a|]. do 6 (split; [done|]).
  intros Hcb Hwf ops m' Hrun.
  destruct (create_footprint a m Hwf) as (Hwf1 & _).
  destruct (run_footprint Hcb _ _ _ Hrun Hwf1) as (_ & _ & _ & _ & seg & Hl & Ha).
  exists seg. split.
  - rewrite Hl. destruct (create_spec a m) as (_ & _ & _ & ->).
    subst t flag. destruct a; by norm_app.
  - intros t' Hin. rewrite Forall_forall in Ha. by apply Ha in Hin.
Qed.




(** C4: [removeAll()] calls [destroy()] on every managed timer, in list
    order, then empties the list and calls [removeAll()] on [events]; on a
    well-formed machine [events] itself is not destroyed.  After [create()]
    followed by [removeAll()], the list is empty, the created timer was
    destroyed, and no later sequence of operations calls its [update()]. *)
Theorem removeAll_destroys_every_managed_timer
    (Hcb : reentrant_create) (m : Machine) (Hwf : wf m)
    (a : option bool) (ops : list Op) (m' : Machine) :
  run ops (removeAll (snd (create a m))) m' ->
  clock (removeAll m) = set_timers [] (clock m) /\
  heap (removeAll m) =
    alter Timer_removeAll (events (clock m))
      (destroy_each (_timers (clock m)) (heap m)) /\
  log (removeAll m) =
    log m ++ map EvDestroy (_timers (clock m)) ++ [EvRemoveAll (events (clock m))] /\
  (EvDestroy (events (clock m))
     ∉ map EvDestroy (_timers (clock m)) ++ [EvRemoveAll (events (clock m))]) /\
  length (_timers (clock (removeAll (snd (create a m))))) = 0 /\
  (EvDestroy (fst (create a m)) ∈ log (removeAll (snd (create a m)))) /\
  exists seg, log m' = log (removeAll (snd (create a m))) ++ seg /\
              forall b, EvUpdate (fst (create a m)) b ∉ seg.
Proof.
  intros Hrun.
  destruct (removeAll_spec m) as (Hc & Hh & Hl).
  split; [done|]. split; [done|]. split; [done|]. split.
  { apply wf_alt in Hwf as (_ & _ & Hne & _).
    intros [(t & [= <-] & Ht)%list_elem_of_fmap|Hin%list_elem_of_singleton]%elem_of_app;
      done. }
  destruct (create_spec a m) as (Ht & Hc1 & Hh1 & Hl1).
  destruct (create_footprint a m Hwf) as (Hwf1 & Hev1 & _).
  destruct (removeAll_spec (snd (create a m))) as (Hc2 & Hh2 & Hl2).
  destruct (removeAll_footprint _ Hwf1) as (Hwf2 & Hev2 & Hle2 & _).
  split; [by rewrite Hc2|]. split.
  { rewrite Hl2, Hc1, Ht. fields.
    rewrite !elem_of_app, list_elem_of_fmap. right; left.
    exists (length (heap m)). split; [done|]. apply elem_of_app. right.
    by apply list_elem_of_singleton. }
  destruct (run_footprint Hcb _ _ _ Hrun Hwf2) as (_ & _ & _ & _ & seg & Hlog & Ha).
  exists seg. split; [done|]. intros b Hin.
  rewrite Forall_forall in Ha. apply Ha in Hin. unfold allowed in Hin.
  rewrite Hev2, Hev1, Hc2, Ht in Hin. fields in Hin.
  rewrite Hh1, length_app in Hle2. cbn [length] in Hle2.
  apply wf_alt in Hwf as (Hev & _).
  destruct Hin as [Hin|[Hin%elem_of_nil|Hin]]; [lia|done|lia].
Qed.

(** C6: in every state reached from the constructor by public operations,
    [events] is the reference made by the constructor, it is allocated, it
    is not in the managed list, and [destroy()] was never called on it.  An
    [update] returns; when the clock is not paused it calls
    [events.update()], and whatever that call returns the [events] field
    and its exclusion from the managed list are as before. *)
Theorem events_timer_is_never_replaced_or_pruned
    (Hcb : reentrant_create) (g : Game) (ops : list Op) (m : Machine) (elapsed : Z) :
  run ops (Clock_new g) m ->
  events (clock m) = events (clock (Clock_new g)) /\
  events (clock m) < length (heap m) /\
  (events (clock m) ∉ _timers (clock m)) /\
  (EvDestroy (events (clock m)) ∉ log m) /\
  exists m', step (OpUpdate elapsed) m m' /\
    events (clock m') = events (clock m) /\
    (events (clock m') ∉ _timers (clock m')) /\
    exists seg,
      log m' = log m ++ seg /\
      (EvDestroy (events (clock m)) ∉ seg) /\
      (paused (clock m) = false ->
       EvUpdate (events (clock m))
         (fst (Timer_update (events (clock m))
            (with_clock (fun c => set_now (now c + elapsed * timeScale c)%Z c) m)))
         ∈ seg).
Proof.
  intros Hrun.
  destruct (run_footprint Hcb _ _ _ Hrun (wf_Clock_new g))
    as (Hwf & Hev & Hh & _ & seg & Hlog & Ha).
  pose proof Hwf as (Hlt & Hts & Hne & _)%wf_alt.
  split; [done|]. split; [done|]. split; [done|]. split.
  { rewrite Hlog, Hev. unfold Clock_new, call_start. fields.
    intros [Hin|Hin]%elem_of_app.
    - by repeat (apply elem_of_cons in Hin as [?|Hin]; [done|]);
        apply elem_of_nil in Hin.
    - rewrite Forall_forall in Ha. apply Ha in Hin. unfold allowed in Hin.
      unfold Clock_new, call_start in Hin. fields in Hin.
      rewrite length_alter in Hin. simpl in Hin.
      destruct Hin as [?%elem_of_nil|?]; [done|lia]. }
  destruct (update_total _ Hcb elapsed m) as (m' & Hstep).
  exists m'. split; [done|].
  destruct (step_footprint Hcb _ _ _ Hstep Hwf) as (Hwf' & Hev' & _ & _ & seg' & Hlog' & Ha').
  pose proof Hwf' as (_ & _ & Hne' & _)%wf_alt.
  split; [done|]. split; [done|]. exists seg'. split; [done|]. split.
  { intros Hin. rewrite Forall_forall in Ha'. apply Ha' in Hin. unfold allowed in Hin.
    destruct Hin as [?|?]; [done|lia]. }
  intros Hp.
  inversion Hstep as [| |? ? fuel ? Hupd| | | |]; subst.
  destruct (update_head_shape _ Hcb elapsed m) as (fl0 & _ & _ & _ & Hlog1).
  destruct (update_returns _ Hcb elapsed m
              (Nat.max fuel (length (_timers (clock (update_head elapsed m))))) Hp)
    as (rs & m'' & Hrun' & _ & _ & _ & _ & Hlog''); [lia|].
  assert (m'' = m') as -> by (eapply update_deterministic; done).
  rewrite Hlog1, Hlog' in Hlog''. rewrite <- !app_assoc in Hlog''.
  apply app_inv_head in Hlog''. rewrite Hlog''.
  rewrite !elem_of_app. right. left. by apply list_elem_of_singleton.
Qed.

(** C2: with callbacks that do not call back into the clock, an unpaused
    [update] returns once the fuel covers the managed list [ts]; after the
    call to [events.update()] it calls [update()] on the entries of [ts] from
    left to right, one call per entry ([bs] lists what the calls returned);
    the list afterwards holds the entries that returned true, in their
    original order.  So a timer is called as many times as it occurs in [ts]:
    once, when the list has no duplicates.  One iteration at cursor position
    [length kept] on the list [kept ++ t :: rest]: when [t.update()] returns
    true only the cursor moves, to the next position; when it returns false
    the entry is removed in place, the bound decreases and the cursor stays,
    so the head of [rest] is the entry examined next. *)
Theorem scan_calls_each_timer_once_and_prunes_in_place
    (Hlocal : timer_local) (m : Machine) (elapsed : Z) (fuel : nat)
    (c : Clock) (h : list TimerState) (l : list Event)
    (kept rest : list TimerRef) (t : TimerRef) (fuel' : nat) :
  paused (clock m) = false ->
  length (_timers (clock m)) <= fuel ->
  (exists b0 bs m',
     update fuel elapsed m = Done m' /\
     length bs = length (_timers (clock m)) /\
     log m' = log m ++ EvUpdate (events (clock m)) b0
                    :: zip_with EvUpdate (_timers (clock m)) bs /\
     _timers (clock m') = survivors (_timers (clock m)) bs /\
     survivors (_timers (clock m)) bs `sublist_of` _timers (clock m) /\
     (forall t', t' ∈ survivors (_timers (clock m)) bs <->
        exists i, _timers (clock m) !! i = Some t' /\ bs !! i = Some true) /\
     (forall t', update_calls t' (zip_with EvUpdate (_timers (clock m)) bs) =
                 length (List.filter (Nat.eqb t') (_timers (clock m)))) /\
     (NoDup (_timers (clock m)) -> forall t', t' ∈ _timers (clock m) ->
        update_calls t' (zip_with EvUpdate (_timers (clock m)) bs) = 1)) /\
  (let mk := mkMachine
               (set_len (Some (Z.of_nat (length kept + S (length rest))))
                  (set_i (Some (Z.of_nat (length kept)))
                     (set_timers (kept ++ t :: rest) c))) h l in
   exists mk',
     update_loop (S fuel') mk = update_loop fuel' mk' /\
     log mk' = l ++ [EvUpdate t (fst (Timer_update t mk))] /\
     clock mk' =
       if fst (Timer_update t mk)
       then set_i (Some (Z.of_nat (S (length kept)))) (clock mk)
       else set_len (Some (Z.of_nat (length kept + length rest)))
              (set_timers (kept ++ rest) (clock mk))).
Proof.
  intros Hp Hfuel. split.
  - destruct (update_head_shape _ Hlocal elapsed m) as (fl0 & -> & Hc1 & Hh1 & Hlog1).
    cbn [length seq] in Hc1, Hh1. rewrite app_nil_r, Nat.add_0_r in Hc1.
    rewrite Nat.add_0_r in Hh1.
    assert (Hts1 : _timers (clock (update_head elapsed m)) = _timers (clock m))
      by (by rewrite Hc1).
    destruct (update_returns _ Hlocal elapsed m fuel Hp)
      as (rs & m' & Hrun & Hlen & HK & Hclock & Hheap & Hlog); [by rewrite Hts1|].
    rewrite Hts1 in Hlen, Hclock, Hlog.
    destruct (scan_log_local (_timers (clock m)) (length (heap (update_head elapsed m)))
                rs Hlen HK) as [Hscan Hcreated].
    rewrite Hscan, Hlog1 in Hlog. rewrite Hcreated in Hclock.
    eexists _, (rs.*1), m'. split; [done|].
    split; [by rewrite length_fmap|].
    split; [rewrite Hlog; unfold news; simpl; by norm_app|].
    split; [rewrite Hclock; fields; by rewrite app_nil_r|].
    split; [apply survivors_sublist|].
    split; [apply survivors_alive|].
    split; [intros t'; apply update_calls_zip; by rewrite length_fmap|].
    intros Hnd t' Ht'. rewrite update_calls_zip by (by rewrite length_fmap).
    by apply filter_eqb_NoDup.
  - intros mk.
    destruct (Hlocal t mk) as (fl & -> & Hc & Hl & _). simpl in Hc, Hl.
    assert (Hidx : js_index (_timers (clock mk)) (_i (clock mk)) = Some t).
    { subst mk. fields. unfold js_index.
      destruct (Z.ltb_spec (Z.of_nat (length kept)) 0); [lia|].
      rewrite Nat2Z.id. rewrite lookup_app_r by lia.
      by rewrite Nat.sub_diag. }
    assert (Hlt : js_lt (_i (clock mk)) (_len (clock mk)) = true).
    { subst mk. fields. unfold js_lt. apply Z.ltb_lt. lia. }
    cbn [update_loop]. rewrite Hlt, Hidx. unfold call_update. fields.
    destruct (fst (Timer_update t mk)) eqn:Halive.
    + eexists. split; [done|]. fields. rewrite Hl, Hc. subst mk. fields.
      split; [done|]. do 2 f_equal. lia.
    + eexists. split; [done|]. fields. rewrite Hl, Hc. subst mk. fields.
      split; [done|]. f_equal.
      * unfold js_splice1.
        destruct (Z.ltb_spec (Z.of_nat (length kept)) 0); [lia|].
        rewrite Z.min_l by (rewrite !length_app; simpl; lia).
        by rewrite Nat2Z.id, delete_middle.
      * f_equal. lia.
Qed.

(** C9: timers appended by [create] from inside the callbacks of the scan
    are not ticked in that pass.  On a well-formed unpaused machine, let
    [ts] be the managed list when the scan starts (after [events.update()])
    and [h] the number of timers allocated by then.  The update returns;
    the [update()] calls of the scan are exactly one per entry of [ts]; the
    timers created during the scan are the references [h, h+1, ...], they
    come last in the list afterwards, and none of them gets [update()] in
    this pass: the bound [_len] starts at the length of [ts] and ends at the
    number of survivors of [ts]; the next update calls [update()] on each of
    them. *)
Theorem timers_created_during_scan_wait_for_next_update
    (Hcb : reentrant_create) (m : Machine) (elapsed elapsed2 : Z) (fuel : nat) :
  wf m ->
  paused (clock m) = false ->
  length (_timers (clock (update_head elapsed m))) <= fuel ->
  let m1 := update_head elapsed m in
  let ts := _timers (clock m1) in
  let h := length (heap m1) in
  _len (clock m1) = Some (Z.of_nat (length ts)) /\
  exists rs m',
    update fuel elapsed m = Done m' /\
    length rs = length ts /\
    log m' = log m1 ++ scan_log h ts rs /\
    updates_of (scan_log h ts rs) = zip ts (rs.*1) /\
    _timers (clock m') = survivors ts (rs.*1) ++ seq h (created rs) /\
    length (heap m') = h + created rs /\
    _len (clock m') = Some (Z.of_nat (length (survivors ts (rs.*1)))) /\
    length (survivors ts (rs.*1)) <= length ts /\
    (forall t b, h <= t -> EvUpdate t b ∉ scan_log h ts rs) /\
    exists m'', step (OpUpdate elapsed2) m' m'' /\
      exists seg, log m'' = log m' ++ seg /\
        forall t, t ∈ seq h (created rs) -> exists b, EvUpdate t b ∈ seg.
Proof.
  intros Hwf Hp Hfuel m1 ts h.
  destruct (update_head_shape _ Hcb elapsed m) as (fl0 & _ & Hc1 & Hh1 & _).
  destruct (update_returns _ Hcb elapsed m fuel Hp Hfuel)
    as (rs & m' & Hrun & Hlen & _ & Hclock & Hheap & Hlog).
  fold m1 in Hc1, Hh1, Hlen, Hclock, Hheap, Hlog.
  fold ts in Hlen, Hclock, Hlog. fold h in Hclock, Hheap, Hlog.
  assert (Hts : forall t, t ∈ ts -> t < h).
  { apply wf_alt in Hwf as (_ & Hin & _).
    intros t. unfold ts, h. rewrite Hc1, Hh1. fields.
    rewrite elem_of_app, elem_of_seq. intros [Ht%Hin|Ht]; lia. }
  split.
  { unfold ts. rewrite Hc1. fields. by rewrite length_app, length_seq. }
  exists rs, m'. split; [done|]. split; [done|]. split; [done|].
  split; [by apply updates_of_scan_log|].
  split; [by rewrite Hclock|]. split; [done|].
  split; [by rewrite Hclock|].
  split; [apply sublist_length, survivors_sublist|].
  split.
  { intros t b Hle Hin. apply scan_log_elem in Hin
      as [(? & ? & [=] & _)|(t' & b' & [= <- <-] & Ht%Hts)]. lia. }
  destruct (update_footprint Hcb _ _ _ _ Hrun Hwf) as (Hwf' & _).
  assert (Hp' : paused (clock m') = false).
  { rewrite Hclock, Hc1. by fields. }
  destruct (update_head_shape _ Hcb elapsed2 m') as (fl2 & _ & Hc2 & Hh2 & Hlog2).
  destruct (update_returns _ Hcb elapsed2 m' _ Hp' (Nat.le_refl _))
    as (rs2 & m'' & Hrun2 & Hlen2 & _ & _ & _ & Hlog'').
  exists m''. split; [by eapply step_update|].
  eexists. split; [rewrite Hlog'', Hlog2; by norm_app|].
  intros t Ht.
  destruct (scan_log_covers (_timers (clock (update_head elapsed2 m')))
              (length (heap (update_head elapsed2 m'))) rs2 t Hlen2) as (b & Hb).
  { rewrite Hc2. fields. rewrite Hclock. fields.
    rewrite !elem_of_app. left; by right. }
  exists b. rewrite elem_of_app, elem_of_cons. right; by right.
Qed.

(** ** Further properties of the operations *)

#[local] Arguments update_head : simpl never.

(** X1: every machine reached from the constructor by public operations is
    well formed: [events] and all managed references are allocated,
    [events] is not in the managed list, and no timer is managed twice. *)
Theorem reachable_machines_are_well_formed
    (Hcb : reentrant_create) (g : Game) (ops : list Op) (m : Machine) :
  run ops (Clock_new g) m ->
  wf m.
Proof.
  intros Hrun.
  by destruct (run_footprint Hcb _ _ _ Hrun (wf_Clock_new g)) as (Hwf & _).
Qed.

Lemma update_log_shape (Hcb : reentrant_create) elapsed m fuel m' :
  paused (clock m) = false ->
  update fuel elapsed m = Done m' ->
  exists fl0 rs,
    length rs = length (_timers (clock (update_head elapsed m))) /\
    _timers (clock (update_head elapsed m)) =
      _timers (clock m) ++ seq (length (heap m)) (length fl0) /\
    length (heap (update_head elapsed m)) = length (heap m) + length fl0 /\
    _timers (clock m') =
      survivors (_timers (clock (update_head elapsed m))) (rs.*1)
        ++ seq (length (heap (update_head elapsed m))) (created rs) /\
    events (clock m') = events (clock m) /\
    length (heap m') = length (heap (update_head elapsed m)) + created rs /\
    log m' =
      log m ++ news (length (heap m)) fl0
        ++ EvUpdate (events (clock m))
             (fst (Timer_update (events (clock m))
                (with_clock (fun c => set_now (now c + elapsed * timeScale c)%Z c) m)))
        :: scan_log (length (heap (update_head elapsed m)))
             (_timers (clock (update_head elapsed m))) rs.
Proof.
  intros Hp Hrun.
  destruct (update_head_shape _ Hcb elapsed m) as (fl0 & _ & Hc1 & Hh1 & Hlog1).
  destruct (update_returns _ Hcb elapsed m
              (Nat.max fuel (length (_timers (clock (update_head elapsed m))))) Hp)
    as (rs & m'' & Hrun' & Hlen & _ & Hclock & Hheap & Hlog); [lia|].
  assert (m'' = m') as -> by (eapply update_deterministic; done).
  exists fl0, rs. split; [done|]. split; [by rewrite Hc1|]. split; [done|].
  split; [by rewrite Hclock|]. split; [by rewrite Hclock, Hc1|]. split; [done|].
  rewrite Hlog, Hlog1. by norm_app.
Qed.

(** X2: an [update] that returns has only made [update()] calls (and the
    constructor calls of the [create]s its callbacks made): it never calls
    [destroy()], [start()] or [removeAll()] on a timer, so a timer it
    prunes is dropped from the list without being destroyed. *)
Theorem update_never_destroys_a_timer
    (Hcb : reentrant_create) (m : Machine) (elapsed : Z) (fuel : nat) (m' : Machine) :
  update fuel elapsed m = Done m' ->
  exists seg, log m' = log m ++ seg /\ Forall is_tick_or_new seg.
Proof.
  intros Hrun. destruct (paused (clock m)) eqn:Hp.
  { unfold update in Hrun. rewrite Hp in Hrun. injection Hrun as <-.
    exists []. by rewrite app_nil_r. }
  destruct (update_log_shape Hcb _ _ _ _ Hp Hrun)
    as (fl0 & rs & _ & _ & _ & _ & _ & _ & Hlog).
  eexists. split; [exact Hlog|].
  apply Forall_app; split; [|constructor; [done|]]; apply Forall_forall; intros e He.
  - by apply news_elem in He as (? & ? & -> & _).
  - by apply scan_log_elem in He as [(? & ? & -> & _)|(? & ? & -> & _)].
Qed.

(** X4: the bound of the scan is taken after [events.update()] has run, so
    the timers created by the callback of the built-in timer are already in
    the list and each gets [update()] in the same pass. *)
Theorem timers_created_by_events_are_ticked_in_the_same_update
    (Hcb : reentrant_create) (m : Machine) (elapsed : Z) (fuel : nat) :
  paused (clock m) = false ->
  length (_timers (clock (update_head elapsed m))) <= fuel ->
  _timers (clock (update_head elapsed m)) =
    _timers (clock m)
      ++ seq (length (heap m))
           (length (heap (update_head elapsed m)) - length (heap m)) /\
  exists m' seg,
    update fuel elapsed m = Done m' /\
    log m' = log m ++ seg /\
    forall t, length (heap m) <= t < length (heap (update_head elapsed m)) ->
              exists b, EvUpdate t b ∈ seg.
Proof.
  intros Hp Hfuel.
  destruct (update_returns _ Hcb elapsed m fuel Hp Hfuel) as (rs0 & m' & Hrun & _).
  destruct (update_log_shape Hcb _ _ _ _ Hp Hrun)
    as (fl0 & rs & Hlen & Hts & Hh & _ & _ & _ & Hlog).
  split.
  { rewrite Hts, Hh. do 2 f_equal. lia. }
  exists m'. eexists. split; [done|]. split; [exact Hlog|].
  intros t Ht.
  destruct (scan_log_covers (_timers (clock (update_head elapsed m)))
              (length (heap (update_head elapsed m))) rs t Hlen) as (b & Hb).
  { rewrite Hts, elem_of_app, elem_of_seq. right. lia. }
  exists b. rewrite elem_of_app, elem_of_cons. right; by right.
Qed.

Lemma destroy_each_lookup ts : forall (h : list TimerState) t,
  NoDup ts ->
  destroy_each ts h !! t =
    if decide (t ∈ ts) then Timer_destroy <$> h !! t else h !! t.
Proof.
  induction ts as [|t0 ts IH]; intros h t Hnd.
  - simpl. destruct (decide (t ∈ [])) as [?%elem_of_nil|]; done.
  - apply NoDup_cons in Hnd as [Hnin Hnd].
    change (destroy_each (t0 :: ts) h) with (destroy_each ts (alter Timer_destroy t0 h)).
    rewrite IH, list_lookup_alter by done.
    rewrite (decide_ext (t ∈ t0 :: ts) (t = t0 \/ t ∈ ts)) by apply elem_of_cons.
    repeat case_decide; subst; try done; exfalso; intuition eauto.
Qed.

(** X5: on a well-formed machine [removeAll()] applies [destroy()] exactly
    once to the state of each managed timer, applies the timer's
    [removeAll()] to [events], and leaves the state of every other timer
    (one that was pruned earlier, say) as it was. *)
Theorem removeAll_touches_managed_timers_and_events_only
    (m : Machine) (t : TimerRef) :
  wf m ->
  heap (removeAll m) !! t =
    if decide (t = events (clock m)) then Timer_removeAll <$> heap m !! t
    else if decide (t ∈ _timers (clock m)) then Timer_destroy <$> heap m !! t
    else heap m !! t.
Proof.
  intros (_ & _ & Hne & Hnd)%wf_alt.
  destruct (removeAll_spec m) as (_ & -> & _).
  destruct (decide (t = events (clock m))) as [->|Hneq].
  - rewrite list_lookup_alter, destroy_each_lookup by done.
    repeat case_decide; done.
  - rewrite list_lookup_alter_ne by done. by apply destroy_each_lookup.
Qed.

(** X6: a second [removeAll()] right after the first destroys nothing: the
    clock record is the same and the only call made is [removeAll()] on
    [events]. *)
Theorem second_removeAll_only_clears_events (m : Machine) :
  clock (removeAll (removeAll m)) = clock (removeAll m) /\
  heap (removeAll (removeAll m)) =
    alter Timer_removeAll (events (clock m)) (heap (removeAll m)) /\
  log (removeAll (removeAll m)) =
    log (removeAll m) ++ [EvRemoveAll (events (clock m))].
Proof.
  destruct (removeAll_spec (removeAll m)) as (Hc & Hh & Hl).
  destruct (removeAll_spec m) as (Hc' & _ & _).
  rewrite Hc, Hh, Hl, Hc'. fields. done.
Qed.

(** X10: however many [update] calls are made while [paused] is true, the
    machine stays exactly as it was (no time added, no timer ticked, no
    timer state changed), whatever the timers' callbacks would do. *)
Theorem updates_while_paused_change_nothing
    (es : list Z) (m m' : Machine) :
  paused (clock m) = true ->
  run (map OpUpdate es) m m' ->
  m' = m.
Proof.
  intros Hp. revert m Hp. induction es as [|e es IH]; intros m Hp Hrun.
  - by inversion Hrun.
  - inversion Hrun as [|? ? ? m1 ? Hs Hr]; subst.
    inversion Hs as [| |? ? fuel ? Hupd| | | |]; subst.
    unfold update in Hupd. rewrite Hp in Hupd. injection Hupd as <-.
    by apply IH.
Qed.






Lemma scan_log_update_index ts : forall h rs t b,
  EvUpdate t b ∈ scan_log h ts rs ->
  exists i, ts !! i = Some t /\ rs.*1 !! i = Some b.
Proof.
  induction ts as [|t0 ts IH]; intros h [|[b0 fl] rs] t b; simpl;
    try (by intros ?%elem_of_nil).
  rewrite elem_of_app, elem_of_cons. intros [Hn|[[= -> ->]|Hs]].
  - by apply news_elem in Hn as (? & ? & [=] & _).
  - by exists 0.
  - destruct (IH _ _ _ _ Hs) as (i & ? & ?). by exists (S i).
Qed.

(** X3: a timer whose [update()] returned false during an [update] of the
    clock is no longer in the managed list afterwards, and no later
    sequence of operations calls its [update()] again. *)
Theorem pruned_timer_is_never_ticked_again
    (Hcb : reentrant_create) (m m' m'' : Machine) (elapsed : Z) (fuel : nat)
    (t : TimerRef) (ops : list Op) :
  wf m ->
  update fuel elapsed m = Done m' ->
  t <> events (clock m) ->
  EvUpdate t false ∈ drop (length (log m)) (log m') ->
  run ops m' m'' ->
  (t ∉ _timers (clock m')) /\
  exists seg, log m'' = log m' ++ seg /\ forall b, EvUpdate t b ∉ seg.
Proof.
  intros Hwf Hupd Hnev Hin Hrun.
  destruct (paused (clock m)) eqn:Hp.
  { unfold update in Hupd. rewrite Hp in Hupd. injection Hupd as <-.
    rewrite drop_all in Hin. by apply elem_of_nil in Hin. }
  destruct (update_log_shape Hcb _ _ _ _ Hp Hupd)
    as (fl0 & rs & Hlen & Hts1 & Hh1 & Htm & Hev & Hheap & Hlog).
  destruct (update_footprint Hcb _ _ _ _ Hupd Hwf) as (Hwf' & _).
  apply wf_alt in Hwf as (Hlt & Hts & Hne & Hnd).
  set (ts1 := _timers (clock (update_head elapsed m))) in *.
  set (h1 := length (heap (update_head elapsed m))) in *.
  assert (Hin1 : forall t0, t0 ∈ ts1 -> t0 < h1).
  { intros t0. rewrite Hts1, Hh1, elem_of_app, elem_of_seq.
    intros [Ht|Ht]; [apply Hts in Ht|]; lia. }
  assert (Hnd1 : NoDup ts1).
  { rewrite Hts1. apply NoDup_app. repeat split; [done| |apply NoDup_seq].
    intros t0 Ht [? _]%elem_of_seq. apply Hts in Ht. lia. }
  rewrite Hlog, drop_app_length in Hin.
  apply elem_of_app in Hin as [Hin|Hin];
    [by apply news_elem in Hin as (? & ? & [=] & _)|].
  apply elem_of_cons in Hin as [[= ? _]|Hin]; [done|].
  apply scan_log_update_index in Hin as (i & Hti & Hbi).
  assert (Ht1 : t ∈ ts1) by (apply list_elem_of_lookup; eauto).
  assert (Hout : t ∉ _timers (clock m')).
  { rewrite Htm. intros [Hs|Hs%elem_of_seq]%elem_of_app.
    - apply survivors_alive in Hs as (j & Htj & Hbj).
      assert (i = j) as -> by (eapply NoDup_lookup; done). congruence.
    - apply Hin1 in Ht1. lia. }
  split; [done|].
  destruct (run_footprint Hcb _ _ _ Hrun Hwf') as (_ & _ & _ & _ & seg & Hl & Ha).
  exists seg. split; [done|]. intros b Hb.
  rewrite Forall_forall in Ha. apply Ha in Hb. unfold allowed in Hb.
  rewrite Hev in Hb. apply Hin1 in Ht1.
  destruct Hb as [?|[?|?]]; [done|done|lia].
Qed.

Lemma update_loop_throws fuel m :
  js_lt (_i (clock m)) (_len (clock m)) = true ->
  js_index (_timers (clock m)) (_i (clock m)) = None ->
  update_loop (S fuel) m = Threw m.
Proof. intros Hlt Hidx. cbn [update_loop]. by rewrite Hlt, Hidx. Qed.

Lemma update_loop_next fuel m t :
  js_lt (_i (clock m)) (_len (clock m)) = true ->
  js_index (_timers (clock m)) (_i (clock m)) = Some t ->
  update_loop (S fuel) m =
    if fst (call_update t m)
    then update_loop fuel
           (with_clock (fun c => set_i (Z.succ <$> _i c) c) (snd (call_update t m)))
    else update_loop fuel
           (with_clock (fun c => set_len (Z.pred <$> _len c) c)
              (with_clock (fun c => set_timers (js_splice1 (_i c) (_timers c)) c)
                 (snd (call_update t m)))).
Proof. intros Hlt Hidx. cbn [update_loop]. by rewrite Hlt, Hidx. Qed.

(** X9: the scan is not safe against a callback that empties the managed
    list (by calling [removeAll()] or [reset()], say): when at least two
    entries are to be scanned and the callback of the first one leaves the
    list empty, the next read [this._timers[this._i]] is [undefined] and
    [update] throws, whatever that callback returned. *)
Theorem update_throws_when_a_callback_empties_the_list
    (m : Machine) (elapsed : Z) (fuel : nat) (t t' : TimerRef) (rest : list TimerRef) :
  paused (clock m) = false ->
  _timers (clock (update_head elapsed m)) = t :: t' :: rest ->
  _timers (clock (snd (Timer_update t (update_head elapsed m)))) = [] ->
  _i (clock (snd (Timer_update t (update_head elapsed m))))
    = _i (clock (update_head elapsed m)) ->
  _len (clock (snd (Timer_update t (update_head elapsed m))))
    = _len (clock (update_head elapsed m)) ->
  exists m', update (S (S fuel)) elapsed m = Threw m' /\
             _timers (clock m') = [] /\
             log m' = log (snd (Timer_update t (update_head elapsed m)))
                        ++ [EvUpdate t (fst (Timer_update t (update_head elapsed m)))].
Proof.
  intros Hp Hts Hempty Hi Hl.
  assert (Hi0 : _i (clock (update_head elapsed m)) = Some 0%Z) by reflexivity.
  assert (Hl0 : _len (clock (update_head elapsed m))
                = Some (Z.of_nat (length (_timers (clock (update_head elapsed m))))))
    by reflexivity.
  rewrite Hts in Hl0. rewrite Hi0 in Hi. rewrite Hl0 in Hl.
  unfold update. rewrite Hp. cbn [negb].
  set (m1 := update_head elapsed m) in *.
  rewrite (update_loop_next (S fuel) m1 t).
  2: { rewrite Hi0, Hl0. apply Z.ltb_lt. simpl; lia. }
  2: { by rewrite Hi0, Hts. }
  unfold call_update. cbn [fst snd].
  destruct (fst (Timer_update t m1)) eqn:Halive.
  - eexists. split; [apply update_loop_throws|by fields].
    + fields. rewrite Hi, Hl. apply Z.ltb_lt. simpl; lia.
    + fields. by rewrite Hi, Hempty.
  - eexists. split; [apply update_loop_throws|].
    + fields. rewrite Hi, Hl. apply Z.ltb_lt. simpl; lia.
    + fields. by rewrite Hi, Hempty.
    + fields. by rewrite Hi, Hempty.
Qed.

End ClockProperties.

(** * The concrete timer class: disciplines, instances of the theorems *)

Lemma Script_tick_reentrant :
  reentrant_create (TM := Script.methods) (TU := Script.reentrant).
Proof.
  intros t m. unfold Timer_update, Script.reentrant, Script.tick.
  destruct (heap m !! t) as [[|[b fl] s]|];
    try (exists []; split; [done | apply same_shape_refl]).
  exists fl. split; [done|]. simpl.
  apply creates_same_shape, same_shape_with_heap, length_insert.
Qed.

Lemma Script_quiet_local :
  timer_local (TM := Script.methods) (TU := Script.quiet).
Proof.
  intros t m. exists []. split; [done|].
  unfold Timer_update, Script.quiet, Script.quiet_tick.
  destruct (heap m !! t) as [[|[b fl] s]|]; try apply same_shape_refl.
  simpl. apply same_shape_with_heap, length_insert.
Qed.

Lemma Script_two_timers_wf : wf Script.two_timers.
Proof.
  apply wf_alt. vm_compute. repeat split; try lia.
  - intros t Ht. repeat (apply elem_of_cons in Ht as [->|Ht]; [lia|]).
    by apply elem_of_nil in Ht.
  - intros Ht. repeat (apply elem_of_cons in Ht as [?|Ht]; [done|]).
    by apply elem_of_nil in Ht.
  - repeat (constructor; [intros Ht;
      repeat (apply elem_of_cons in Ht as [?|Ht]; [done|]);
      by apply elem_of_nil in Ht|]).
    constructor.
Qed.

Section ReentrantScripts.

#[local] Existing Instance Script.reentrant.


Lemma removeAll_destroys_every_managed_timer_witness :
  reentrant_create /\ wf Script.two_timers /\
  exists m',
    run [OpCreate None; OpUpdate 16%Z]
        (removeAll (snd (create None Script.two_timers))) m' /\
    fst (create None Script.two_timers) = 3 /\
    _timers (clock (removeAll (snd (create None Script.two_timers)))) = [] /\
    exists seg,
      log m' = log (removeAll (snd (create None Script.two_timers))) ++ seg /\
      forall b, EvUpdate 3 b ∉ seg.
Proof.
  split; [exact Script_tick_reentrant|]. split; [exact Script_two_timers_wf|].
  assert (exists m', run [OpCreate None; OpUpdate 16%Z]
            (removeAll (snd (create None Script.two_timers))) m') as (m' & Hrun).
  { eexists. eapply run_cons; [apply step_create|].
    eapply run_cons; [apply (step_update _ _ 1); vm_compute; reflexivity|].
    apply run_nil. }
  exists m'. split; [exact Hrun|]. split; [reflexivity|]. split; [reflexivity|].
  exact (proj2 (proj2 (proj2 (proj2 (proj2 (proj2
    (removeAll_destroys_every_managed_timer Script_tick_reentrant
       Script.two_timers Script_two_timers_wf None _ m' Hrun))))))).
Defined.

Lemma events_timer_is_never_replaced_or_pruned_witness :
  reentrant_create /\
  exists m,
    run [OpCreate None; OpUpdate 16%Z; OpReset] (Clock_new tt) m /\
    events (clock m) = 0 /\
    (EvDestroy 0 ∉ log m) /\
    exists m', step (OpUpdate 16%Z) m m' /\ events (clock m') = 0 /\
               (0 ∉ _timers (clock m')).
Proof.
  split; [exact Script_tick_reentrant|].
  assert (exists m, run [OpCreate None; OpUpdate 16%Z; OpReset] (Clock_new tt) m)
    as (m & Hrun).
  { eexists. eapply run_cons; [apply step_create|].
    eapply run_cons; [apply (step_update _ _ 1); vm_compute; reflexivity|].
    eapply run_cons; [apply step_reset|]. apply run_nil. }
  exists m. split; [exact Hrun|].
  destruct (events_timer_is_never_replaced_or_pruned Script_tick_reentrant
              tt _ m 16%Z Hrun) as (Hev & _ & _ & Hnd & m' & Hstep & Hev' & Hne' & _).
  change (events (clock m) = 0) in Hev.
  rewrite Hev in Hnd, Hev'. rewrite Hev' in Hne'.
  split; [exact Hev|]. split; [exact Hnd|].
  exists m'. split; [exact Hstep|]. split; [exact Hev'|exact Hne'].
Defined.


Lemma timers_created_during_scan_wait_for_next_update_witness :
  reentrant_create /\ wf Script.two_timers /\
  paused (clock Script.two_timers) = false /\
  length (_timers (clock (update_head 16%Z Script.two_timers))) <= 2 /\
  exists m',
    update 2 16%Z Script.two_timers = Done m' /\
    _timers (clock m') = [1; 2; 3] /\
    updates_of (log m') = [(0, false); (1, true); (2, true)] /\
    exists m'', step (OpUpdate 16%Z) m' m'' /\
      exists seg, log m'' = log m' ++ seg /\ exists b, EvUpdate 3 b ∈ seg.
Proof.
  split; [exact Script_tick_reentrant|]. split; [exact Script_two_timers_wf|].
  split; [reflexivity|].
  assert (Hfuel : length (_timers (clock (update_head 16%Z Script.two_timers))) <= 2)
    by (vm_compute; lia).
  split; [exact Hfuel|].
  destruct (timers_created_during_scan_wait_for_next_update Script_tick_reentrant
              Script.two_timers 16%Z 16%Z 2 Script_two_timers_wf eq_refl Hfuel)
    as (_ & rs & m' & Hrun & _ & _ & _ & _ & Hheap & _ & _ & _
          & m'' & Hstep & seg & Hlog & Hall).
  exists m'. split; [exact Hrun|].
  vm_compute in Hrun. injection Hrun as <-.
  split; [reflexivity|]. split; [reflexivity|].
  exists m''. split; [exact Hstep|]. exists seg. split; [exact Hlog|].
  apply (Hall 3).
  change (4 = 3 + created rs) in Hheap.
  replace (created rs) with 1 by lia.
  apply elem_of_cons. by left.
Defined.

Lemma create_appends_a_fresh_timer_witness :
  reentrant_create /\ wf Script.two_timers /\
  create None Script.two_timers =
    (3, Script.schedule 3 []
          (with_clock (set_timers [1; 2; 3])
             (emit (EvNew 3 true) (with_heap (fun h => h ++ [[]]) Script.two_timers)))) /\
  exists m',
    run [OpUpdate 16%Z; OpRemoveAll] (snd (create None Script.two_timers)) m' /\
    exists seg, log m' = log Script.two_timers ++ EvNew 3 true :: seg /\
                forall t', EvStart t' ∉ seg.
Proof.
  split; [exact Script_tick_reentrant|]. split; [exact Script_two_timers_wf|].
  split; [reflexivity|].
  assert (exists m', run [OpUpdate 16%Z; OpRemoveAll]
            (snd (create None Script.two_timers)) m') as (m' & Hrun).
  { eexists. eapply run_cons; [apply (step_update _ _ 3); vm_compute; reflexivity|].
    eapply run_cons; [apply step_removeAll|]. apply run_nil. }
  exists m'. split; [exact Hrun|].
  exact (proj2 (proj2 (proj2 (proj2 (proj2 (proj2 (proj2
    (create_appends_a_fresh_timer tt None Script.two_timers)))))))
      Script_tick_reentrant Script_two_timers_wf _ m' Hrun).
Defined.


End ReentrantScripts.

Section QuietScripts.

#[local] Existing Instance Script.quiet.

Lemma scan_calls_each_timer_once_and_prunes_in_place_witness :
  timer_local /\
  paused (clock Script.before_second_tick) = false /\
  length (_timers (clock Script.before_second_tick)) <= 2 /\
  _timers (clock Script.before_second_tick) = [1; 2] /\
  exists m',
    update 2 16%Z Script.before_second_tick = Done m' /\
    _timers (clock m') = [2] /\
    log m' = log Script.before_second_tick
               ++ [EvUpdate 0 false; EvUpdate 1 false; EvUpdate 2 true] /\
    exists bs, update_calls 2 (zip_with EvUpdate [1; 2] bs) = 1.
Proof.
  split; [exact Script_quiet_local|]. split; [reflexivity|].
  assert (Hfuel : length (_timers (clock Script.before_second_tick)) <= 2)
    by (vm_compute; lia).
  split; [exact Hfuel|]. split; [reflexivity|].
  destruct (scan_calls_each_timer_once_and_prunes_in_place Script_quiet_local
              Script.before_second_tick 16%Z 2
              (clock Script.before_second_tick) [] [] [1] [] 2 0 eq_refl Hfuel)
    as ((b0 & bs & m' & Hrun & _ & _ & _ & _ & _ & Hcalls & _) & _).
  exists m'. split; [exact Hrun|].
  vm_compute in Hrun. injection Hrun as <-.
  split; [reflexivity|]. split; [reflexivity|].
  exists bs. exact (Hcalls 2).
Defined.

Lemma paused_update_is_noop_witness :
  paused (clock (write_paused true Script.two_timers)) = true /\
  update 0 16%Z (write_paused true Script.two_timers)
    = Done (write_paused true Script.two_timers).
Proof.
  split; [reflexivity|].
  exact (paused_update_is_noop (write_paused true Script.two_timers) 0 16%Z eq_refl).
Defined.

End QuietScripts.

(** * Instances of the further properties *)

Lemma timer_local_reentrant {Game TimerState : Type}
    {TM : TimerMethods Game TimerState} {TU : TimerUpdate Game TimerState} :
  timer_local -> reentrant_create.
Proof. intros Hl t m. destruct (Hl t m) as (fl & _ & Hs). by exists fl. Qed.

Ltac solve_concrete_wf :=
  apply wf_alt; vm_compute; repeat split; try lia;
  [ intros t Ht; repeat (apply elem_of_cons in Ht as [->|Ht]; [lia|]);
    by apply elem_of_nil in Ht
  | intros Ht; repeat (apply elem_of_cons in Ht as [?|Ht]; [done|]);
    by apply elem_of_nil in Ht
  | repeat (constructor; [intros Ht;
      repeat (apply elem_of_cons in Ht as [?|Ht]; [done|]);
      by apply elem_of_nil in Ht|]);
    constructor ].

Lemma Script_before_second_tick_wf : wf Script.before_second_tick.
Proof. solve_concrete_wf. Qed.

Section MoreReentrantScripts.

#[local] Existing Instance Script.reentrant.

Lemma reachable_machines_are_well_formed_witness :
  reentrant_create /\
  exists m, run [OpCreate None; OpUpdate 16%Z; OpCreate (Some false)] (Clock_new tt) m /\
            wf m.
Proof.
  split; [exact Script_tick_reentrant|].
  assert (exists m, run [OpCreate None; OpUpdate 16%Z; OpCreate (Some false)]
                        (Clock_new tt) m) as (m & Hrun).
  { eexists. eapply run_cons; [apply step_create|].
    eapply run_cons; [apply (step_update _ _ 1); vm_compute; reflexivity|].
    eapply run_cons; [apply step_create|]. apply run_nil. }
  exists m. split; [exact Hrun|].
  exact (reachable_machines_are_well_formed Script_tick_reentrant tt _ m Hrun).
Defined.

Lemma update_never_destroys_a_timer_witness :
  reentrant_create /\
  exists m', update 2 16%Z Script.two_timers = Done m' /\
    exists seg, log m' = log Script.two_timers ++ seg /\ Forall is_tick_or_new seg.
Proof.
  split; [exact Script_tick_reentrant|].
  assert (exists m', update 2 16%Z Script.two_timers = Done m') as (m' & Hupd).
  { eexists. vm_compute. reflexivity. }
  exists m'. split; [exact Hupd|].
  exact (update_never_destroys_a_timer Script_tick_reentrant
           Script.two_timers 16%Z 2 m' Hupd).
Defined.

Lemma timers_created_by_events_are_ticked_in_the_same_update_witness :
  reentrant_create /\
  paused (clock (Script.schedule 0 [(true, [None])] Script.two_timers)) = false /\
  length (_timers (clock (update_head 16%Z
            (Script.schedule 0 [(true, [None])] Script.two_timers)))) <= 3 /\
  exists m' seg,
    update 3 16%Z (Script.schedule 0 [(true, [None])] Script.two_timers) = Done m' /\
    log m' = log Script.two_timers ++ seg /\
    exists b, EvUpdate 3 b ∈ seg.
Proof.
  split; [exact Script_tick_reentrant|]. split; [reflexivity|].
  assert (Hfuel : length (_timers (clock (update_head 16%Z
            (Script.schedule 0 [(true, [None])] Script.two_timers)))) <= 3)
    by (vm_compute; lia).
  split; [exact Hfuel|].
  destruct (timers_created_by_events_are_ticked_in_the_same_update
              Script_tick_reentrant
              (Script.schedule 0 [(true, [None])] Script.two_timers) 16%Z 3
              eq_refl Hfuel) as (_ & m' & seg & Hupd & Hlog & Hall).
  exists m', seg. split; [exact Hupd|]. split; [exact Hlog|].
  apply (Hall 3). change (3 <= 3 < 4). lia.
Defined.

Lemma removeAll_touches_managed_timers_and_events_only_witness :
  wf Script.two_timers /\
  heap (removeAll Script.two_timers) !! 1
    = Timer_destroy <$> heap Script.two_timers !! 1.
Proof.
  split; [exact Script_two_timers_wf|].
  exact (removeAll_touches_managed_timers_and_events_only
           Script.two_timers 1 Script_two_timers_wf).
Defined.



End MoreReentrantScripts.

Section MoreQuietScripts.

#[local] Existing Instance Script.quiet.

Lemma pruned_timer_is_never_ticked_again_witness :
  reentrant_create /\ wf Script.before_second_tick /\
  1 <> events (clock Script.before_second_tick) /\
  exists m' m'',
    update 2 16%Z Script.before_second_tick = Done m' /\
    (EvUpdate 1 false ∈ drop (length (log Script.before_second_tick)) (log m')) /\
    run [OpUpdate 16%Z; OpUpdate 16%Z] m' m'' /\
    (1 ∉ _timers (clock m')) /\
    exists seg, log m'' = log m' ++ seg /\ forall b, EvUpdate 1 b ∉ seg.
Proof.
  split; [exact (timer_local_reentrant Script_quiet_local)|].
  split; [exact Script_before_second_tick_wf|]. split; [discriminate|].
  assert (exists m', update 2 16%Z Script.before_second_tick = Done m')
    as (m' & Hupd) by (eexists; vm_compute; reflexivity).
  assert (Hin : EvUpdate 1 false
                  ∈ drop (length (log Script.before_second_tick)) (log m')).
  { vm_compute in Hupd. injection Hupd as <-. vm_compute.
    apply elem_of_cons; right. apply elem_of_cons; by left. }
  assert (exists m'', run [OpUpdate 16%Z; OpUpdate 16%Z] m' m'') as (m'' & Hrun).
  { vm_compute in Hupd. injection Hupd as <-. eexists.
    eapply run_cons; [apply (step_update _ _ 1); vm_compute; reflexivity|].
    eapply run_cons; [apply (step_update _ _ 1); vm_compute; reflexivity|].
    apply run_nil. }
  exists m', m''. split; [exact Hupd|]. split; [exact Hin|]. split; [exact Hrun|].
  exact (pruned_timer_is_never_ticked_again
           (timer_local_reentrant Script_quiet_local)
           Script.before_second_tick m' m'' 16%Z 2 1 _
           Script_before_second_tick_wf Hupd ltac:(discriminate) Hin Hrun).
Defined.

Lemma updates_while_paused_change_nothing_witness :
  paused (clock (write_paused true Script.two_timers)) = true /\
  exists m',
    run (map OpUpdate [16; 16]%Z) (write_paused true Script.two_timers) m' /\
    m' = write_paused true Script.two_timers.
Proof.
  split; [reflexivity|].
  assert (exists m', run (map OpUpdate [16; 16]%Z)
            (write_paused true Script.two_timers) m') as (m' & Hrun).
  { eexists. eapply run_cons; [apply (step_update _ _ 0); vm_compute; reflexivity|].
    eapply run_cons; [apply (step_update _ _ 0); vm_compute; reflexivity|].
    apply run_nil. }
  exists m'. split; [exact Hrun|].
  exact (updates_while_paused_change_nothing [16; 16]%Z
           (write_paused true Script.two_timers) m' eq_refl Hrun).
Defined.

End MoreQuietScripts.

Section ClearingScripts.

#[local] Existing Instance Script.clearing.

Lemma update_throws_when_a_callback_empties_the_list_witness :
  paused (clock Script.two_timers) = false /\
  _timers (clock (update_head 16%Z Script.two_timers)) = [1; 2] /\
  _timers (clock (snd (Timer_update 1 (update_head 16%Z Script.two_timers)))) = [] /\
  exists m', update 2 16%Z Script.two_timers = Threw m' /\
             _timers (clock m') = [].
Proof.
  assert (Hts : _timers (clock (update_head 16%Z Script.two_timers)) = [1; 2])
    by reflexivity.
  assert (Hempty : _timers (clock (snd (Timer_update 1
                     (update_head 16%Z Script.two_timers)))) = [])
    by reflexivity.
  assert (Hi : _i (clock (snd (Timer_update 1 (update_head 16%Z Script.two_timers))))
               = _i (clock (update_head 16%Z Script.two_timers)))
    by reflexivity.
  assert (Hl : _len (clock (snd (Timer_update 1 (update_head 16%Z Script.two_timers))))
               = _len (clock (update_head 16%Z Script.two_timers)))
    by reflexivity.
  split; [reflexivity|]. split; [exact Hts|]. split; [exact Hempty|].
  destruct (update_throws_when_a_callback_empties_the_list
              Script.two_timers 16%Z 0 1 2 [] eq_refl Hts Hempty Hi Hl)
    as (m' & Hupd & Hnil & _).
  exists m'. split; [exact Hupd|exact Hnil].
Defined.

End ClearingScripts.
